(** * Luxtronik heat-pump client: register codec and session framing

    A shallow embedding of the Go package [luxtronik]: the register
    descriptor [Base] with its decode ([FromHeatPump]) and encode
    ([ToHeatPump]) rules, the register map [DataTypeMap] with its bulk setter,
    and the session's read framing over a scripted transport.

    Conventions.
    - A Go [uint32] is a [Z]; every conversion that can wrap is written with
      [U32.wrap]. A Go [int64] is a [Z] with [I64.wrap]; an [int32] request word
      is a [Z] that is wrapped where the code converts or serialises it.
    - A Go [float32]/[float64] is a [spec_float] of precision 24/53.
    - A Go value of type [any] is a value of the inductive [any].
    - A Go call that may panic returns an [outcome].
    - A [*Base] is a [ptr] into a [heap]; methods with a pointer receiver are
      state transformers on the pointed-to [Base]. *)

From Stdlib Require Import ZArith List String Ascii Bool Lia HexadecimalString.
From Stdlib.Strings Require Import Byte.
From Stdlib Require Import Floats.SpecFloat.
From stdpp Require Import base option list gmap strings pretty sorting.

Local Open Scope Z_scope.

(** ** Machine integers *)

Module U32.
Definition modulus : Z := 2 ^ 32.
Definition wrap (z : Z) : Z := z mod modulus.
Definition in_range (z : Z) : Prop := 0 <= z < modulus.
End U32.

Module I64.
Definition min : Z := - 2 ^ 63.
Definition max : Z := 2 ^ 63 - 1.
Definition wrap (z : Z) : Z := (z + 2 ^ 63) mod 2 ^ 64 - 2 ^ 63.
End I64.

(** ** IEEE-754 arithmetic, as Go's [float32] and [float64] *)

Abbreviation float32 := spec_float (only parsing).
Abbreviation float64 := spec_float (only parsing).

(** Truncation of a finite float toward zero; [None] on NaN and infinities. *)
Definition float_trunc (f : spec_float) : option Z :=
  match f with
  | S754_zero _ => Some 0
  | S754_finite s m e =>
      let mag := if 0 <=? e then Z.pos m * 2 ^ e else Z.pos m / 2 ^ (- e) in
      Some (if s then - mag else mag)
  | S754_infinity _ | S754_nan => None
  end.

(** Go's [uint32(f)] for a float [f]. Inside the range of [uint32] this is
    truncation. Outside it the language leaves the result to the
    implementation; the value here is the one of the amd64 back end
    (conversion to a 64-bit integer, low 32 bits kept). *)
Definition uint32_of_float (f : spec_float) : Z :=
  match float_trunc f with
  | Some z => if (I64.min <=? z) && (z <=? I64.max) then U32.wrap z else 0
  | None => 0
  end.

Module F32.
Definition prec : Z := 24.
Definition emax : Z := 128.
Definition zero : float32 := S754_zero false.
Definition of_Z (z : Z) : float32 := binary_normalize prec emax z 0 false.
Definition mul (x y : float32) : float32 := SFmul prec emax x y.
Definition div (x y : float32) : float32 := SFdiv prec emax x y.
Definition eqb (x y : float32) : bool := SFeqb x y.
(** The [float32] nearest to the constant [n/d] (as the compiler rounds an
    untyped constant such as [0.1]). *)
Definition of_ratio (n d : Z) : float32 := div (of_Z n) (of_Z d).
(** Rounding of any float to [float32]. *)
Definition round (x : spec_float) : float32 :=
  match x with
  | S754_finite s m e => binary_normalize prec emax (if s then Z.neg m else Z.pos m) e s
  | _ => x
  end.
End F32.

Module F64.
Definition prec : Z := 53.
Definition emax : Z := 1024.
Definition of_Z (z : Z) : float64 := binary_normalize prec emax z 0 false.
Definition mul (x y : float64) : float64 := SFmul prec emax x y.
Definition div (x y : float64) : float64 := SFdiv prec emax x y.
(** [float64(x)] for a [float32] [x]: exact, only the mantissa is re-aligned. *)
Definition of_float32 (x : float32) : float64 :=
  match x with
  | S754_finite s m e => binary_normalize prec emax (if s then Z.neg m else Z.pos m) e s
  | _ => x
  end.
(** [math.Round]: the nearest integer, halves away from zero. *)
Definition Round (x : float64) : float64 :=
  match x with
  | S754_finite s m e =>
      if 0 <=? e then x
      else
        let d := 2 ^ (- e) in
        let q := Z.pos m / d in
        let r := Z.pos m mod d in
        let mag := if d <=? 2 * r then q + 1 else q in
        binary_normalize prec emax (if s then - mag else mag) 0 s
  | _ => x
  end.
(** [math.Pow(10, p)] for a small natural [p] (exact up to [10^22]). *)
Definition Pow10 (p : Z) : float64 := of_Z (10 ^ p).
End F64.

(** ** Dynamic values, errors, outcomes *)

(** The dynamic types that cross the codec's [any] interfaces. *)
Inductive any : Type :=
| ANil
| AString (s : string)
| AUint32 (u : Z)
| AInt (i : Z)
| AFloat32 (f : float32)
| ABool (b : bool)
| ADuration (ns : Z).

(** Go [error] values. [Errorf] is [fmt.Errorf] without [%w] (format and
    arguments are kept apart: no claim depends on the rendered text);
    [Wrapf] is [fmt.Errorf] with one [%w] verb wrapping [cause]. *)
Inductive error : Type :=
| ErrWritingNotAllowed
| EOF
| TransportError (msg : string)
| Errorf (format : string) (args : list any)
| Wrapf (format : string) (args : list any) (cause : error).

(** [errors.Is(err, ErrWritingNotAllowed)]. *)
Fixpoint is_ErrWritingNotAllowed (err : error) : bool :=
  match err with
  | ErrWritingNotAllowed => true
  | Wrapf _ _ cause => is_ErrWritingNotAllowed cause
  | _ => false
  end.

(** The result of a call: a returned value or a run-time panic. *)
Inductive outcome (A : Type) : Type :=
| Done (a : A)
| Panic (msg : string).
Arguments Done {A} a.
Arguments Panic {A} msg.

(** ** The conversions of [github.com/spf13/cast]

    The package is a dependency, not part of the repository. Its conversions
    are written out for the dynamic types of [any]; where it delegates to
    Go's [strconv] or [time] packages (text to number, float to text, time
    layouts) the function is taken from the record [textconv]. *)

Record textconv : Type := {
  (** [strconv.ParseInt(trimZeroDecimal(s), 0, 0)], [None] on a syntax or range error *)
  ParseInt : string -> option Z;
  (** [strconv.ParseFloat(s, 32)] *)
  ParseFloat32 : string -> option float32;
  (** [strconv.FormatFloat(float64(f), 'f', -1, 32)] *)
  FormatFloat32 : float32 -> string;
  (** [time.Duration.String] *)
  DurationString : Z -> string;
  (** [time.Unix(sec, 0).Format("2006-01-02 15:04:05")], in the local zone *)
  FormatTime : Z -> string;
  (** [time.Parse("2006-01-02 15:04:05", s)]: the [Unix()] seconds of the
      returned time (of the zero time on failure) and the error *)
  ParseTime : string -> Z * option error
}.

Module cast.
Section Cast.
Variable tc : textconv.

Definition ToString (v : any) : string :=
  match v with
  | ANil => ""
  | AString s => s
  | AUint32 u => pretty u
  | AInt i => pretty i
  | AFloat32 f => FormatFloat32 tc f
  | ABool b => if b then "true" else "false"
  | ADuration ns => DurationString tc ns
  end.

Definition ToUint32 (v : any) : Z :=
  match v with
  | ANil => 0
  | AString s =>
      match ParseInt tc s with
      | Some i => if i <? 0 then 0 else U32.wrap i
      | None => 0
      end
  | AUint32 u => u
  | AInt i => if i <? 0 then 0 else U32.wrap i
  | AFloat32 f => if SFltb f F32.zero then 0 else uint32_of_float f
  | ABool b => if b then 1 else 0
  | ADuration _ => 0
  end.

Definition ToFloat32 (v : any) : float32 :=
  match v with
  | ANil => F32.zero
  | AString s => default F32.zero (ParseFloat32 tc s)
  | AUint32 u => F32.of_Z u
  | AInt i => F32.of_Z i
  | AFloat32 f => f
  | ABool b => if b then F32.of_Z 1 else F32.zero
  | ADuration _ => F32.zero
  end.

(** [strconv.ParseBool] accepts exactly these twelve spellings. *)
Definition ParseBool (s : string) : option bool :=
  if bool_decide (s ∈ ["1"; "t"; "T"; "TRUE"; "true"; "True"]) then Some true
  else if bool_decide (s ∈ ["0"; "f"; "F"; "FALSE"; "false"; "False"]) then Some false
  else None.

Definition ToBool (v : any) : bool :=
  match v with
  | ANil => false
  | AString s => default false (ParseBool s)
  | AUint32 u => negb (u =? 0)
  | AInt i => negb (i =? 0)
  | AFloat32 f => negb (F32.eqb f F32.zero)
  | ABool b => b
  | ADuration ns => negb (ns =? 0)
  end.

End Cast.
End cast.

(** ** Register descriptors *)

(** The members of [reflect.Kind] the package uses; [Invalid] is the zero
    value of the type. *)
Module reflect.
Inductive Kind : Set := Invalid | Bool | Int64 | Uint32 | Float32 | String.
End reflect.

Definition classEnergy : string := "energy".
Definition classTemperature : string := "temperature".
Definition classNone : string := "none".
Definition classSelection : string := "selection".
Definition classFrequency : string := "frequency".
Definition classCount : string := "count".
Definition classDuration : string := "duration".
Definition classTime : string := "time".
Definition classBool : string := "bool".

(** The struct [Base]. A nil slice is [None], a nil function value is [None].
    A function value is a partial function: it returns or panics. *)
Record Base : Type := {
  customFromHP : option (Z -> outcome any);
  customToHP : option (any -> outcome (Z * option error));
  codes : option (list string);
  returnType : reflect.Kind;
  name : string;
  class : string;
  luxtronikName : string;
  unit_ : string;
  rawValue : Z;
  prevRawValue : Z;
  factor : float32;
  writeable : bool
}.

Definition set_rawValue (v : Z) (b : Base) : Base :=
  {| customFromHP := customFromHP b; customToHP := customToHP b;
     codes := codes b; returnType := returnType b; name := name b;
     class := class b; luxtronikName := luxtronikName b; unit_ := unit_ b;
     rawValue := v; prevRawValue := prevRawValue b;
     factor := factor b; writeable := writeable b |}.

Definition set_prevRawValue (v : Z) (b : Base) : Base :=
  {| customFromHP := customFromHP b; customToHP := customToHP b;
     codes := codes b; returnType := returnType b; name := name b;
     class := class b; luxtronikName := luxtronikName b; unit_ := unit_ b;
     rawValue := rawValue b; prevRawValue := v;
     factor := factor b; writeable := writeable b |}.

Definition set_codes (cs : option (list string)) (b : Base) : Base :=
  {| customFromHP := customFromHP b; customToHP := customToHP b;
     codes := cs; returnType := returnType b; name := name b;
     class := class b; luxtronikName := luxtronikName b; unit_ := unit_ b;
     rawValue := rawValue b; prevRawValue := prevRawValue b;
     factor := factor b; writeable := writeable b |}.

Definition set_name (n : string) (b : Base) : Base :=
  {| customFromHP := customFromHP b; customToHP := customToHP b;
     codes := codes b; returnType := returnType b; name := n;
     class := class b; luxtronikName := luxtronikName b; unit_ := unit_ b;
     rawValue := rawValue b; prevRawValue := prevRawValue b;
     factor := factor b; writeable := writeable b |}.

(** *** Methods with receiver [*Base]

    A method is a state transformer on the receiver that returns a value or
    panics; the receiver's fields are reached through [read] and [write]
    only. *)

Definition method (A : Type) : Type := Base -> outcome A * Base.

Definition ret {A} (a : A) : method A := fun b => (Done a, b).
Definition panic {A} (msg : string) : method A := fun b => (Panic msg, b).
Definition read {A} (field : Base -> A) : method A := fun b => (Done (field b), b).
Definition write (upd : Base -> Base) : method unit := fun b => (Done tt, upd b).
Definition lift {A} (o : outcome A) : method A := fun b => (o, b).
Definition bind {A B} (m : method A) (k : A -> method B) : method B :=
  fun b => match m b with
           | (Done a, b') => k a b'
           | (Panic msg, b') => (Panic msg, b')
           end.

Declare Scope method_scope.
Delimit Scope method_scope with method.
Notation "x <- m ;; k" := (bind m (fun x => k))
  (at level 100, m at next level, right associativity) : method_scope.
Notation "m ;; k" := (bind m (fun _ => k))
  (at level 100, right associativity) : method_scope.

(** The value a method returns and the receiver it leaves. *)
Definition result_of {A} (m : method A) (b : Base) : outcome A := fst (m b).
Definition after {A} (m : method A) (b : Base) : Base := snd (m b).

Definition Name : method string := read luxtronikName.
Definition Unit : method string := read unit_.

Definition SetRaw (val : Z) : method unit :=
  (prev <- read rawValue ;;
   write (set_prevRawValue prev) ;;
   write (set_rawValue val))%method.

Definition HasChanges : method bool :=
  (prev <- read prevRawValue ;;
   raw <- read rawValue ;;
   ret (negb (prev =? raw)))%method.

(** [s[i]] for a slice and an unsigned index: a panic when out of range. *)
Definition index {A} (s : list A) (i : Z) : outcome A :=
  match (if 0 <=? i then s !! Z.to_nat i else None) with
  | Some a => Done a
  | None => Panic "index out of range"
  end.

(** [roundFloat(val, precision)], computed in [float64], returned as [float32]. *)
Definition roundFloat (val : float64) (precision : Z) : float32 :=
  let ratio := F64.Pow10 precision in
  F32.round (F64.div (F64.Round (F64.mul val ratio)) ratio).

Definition Second : Z := 1000000000.

Definition FromHeatPump : method any :=
  (cs <- read codes ;;
   raw <- read rawValue ;;
   match cs with
   | Some cs =>
       if U32.wrap (Z.of_nat (length cs)) <? raw
       then ret (AString ("unknown code: " +:+ pretty raw))
       else (s <- lift (index cs raw) ;; ret (AString s))
   | None =>
   custom <- read customFromHP ;;
   match custom with
   | Some f => lift (f raw)
   | None =>
   cl <- read class ;;
   nm <- read name ;;
   if bool_decide (cl = classDuration) && bool_decide (nm = "seconds")
   then ret (ADuration (I64.wrap (raw * Second)))
   else
   rt <- read returnType ;;
   fac <- read factor ;;
   match rt with
   | reflect.Uint32 =>
       if negb (F32.eqb fac F32.zero)
       then ret (AUint32 (uint32_of_float (F32.mul (F32.of_Z raw) fac)))
       else ret (AUint32 raw)
   | reflect.Float32 =>
       if negb (F32.eqb fac F32.zero)
       then ret (AFloat32 (roundFloat (F64.mul (F64.of_Z raw) (F64.of_float32 fac)) 3))
       else ret (AFloat32 (F32.of_Z raw))
   | _ => ret (AUint32 raw)
   end
   end
   end)%method.

(** The loop [for idx, code := range codes] of [ToHeatPump]: the first index
    whose entry equals [vals]. *)
Fixpoint find_code (vals : string) (cs : list string) (idx : Z) : option Z :=
  match cs with
  | [] => None
  | code :: rest =>
      if bool_decide (code = vals) then Some idx else find_code vals rest (idx + 1)
  end.

Section Encode.
Variable tc : textconv.

Definition ToHeatPump (val : any) : method (Z * option error) :=
  (w <- read writeable ;;
   if negb w
   then ret (0, Some (Errorf "ToHeatPump can't write non-writeable value: %v" [val]))
   else
   cs <- read codes ;;
   match cs with
   | Some cs =>
       let vals := cast.ToString tc val in
       match find_code vals cs 0 with
       | Some idx => ret (U32.wrap idx, None)
       | None =>
           ret (0, Some (Errorf "ToHeatPump can't find value: %q in list of codes"
                                [AString vals]))
       end
   | None =>
   custom <- read customToHP ;;
   raw <- read rawValue ;;
   match custom with
   | Some f => lift (f (AUint32 raw))
   | None =>
   rt <- read returnType ;;
   fac <- read factor ;;
   match rt with
   | reflect.Uint32 =>
       if negb (F32.eqb fac F32.zero)
       then ret (uint32_of_float (F32.div (cast.ToFloat32 tc val) fac), None)
       else ret (raw, None)
   | reflect.Float32 =>
       if negb (F32.eqb fac F32.zero)
       then ret (uint32_of_float (F32.div (cast.ToFloat32 tc val) fac), None)
       else ret (cast.ToUint32 tc val, None)
   | _ => ret (raw, None)
   end
   end
   end)%method.

End Encode.

(** ** The catalogue of descriptor constructors *)

(** A keyed composite literal [[]string{k1: v1, k2: v2, ...}]: as long as the
    largest key requires, the empty string at every key left out. *)
Definition slice_literal (kvs : list (nat * string)) : list string :=
  foldl (fun acc kv => <[kv.1 := kv.2]> acc)
        (replicate (S (max_list (kvs.*1))) "") kvs.

(** A keyed array literal [[n]string{...}]. *)
Definition array_literal (n : nat) (kvs : list (nat * string)) : list string :=
  foldl (fun acc kv => <[kv.1 := kv.2]> acc) (replicate n "") kvs.

Definition SocketReadSizeInteger : nat := 4.
Definition SocketReadSizeChar : nat := 1.

(** A struct literal [&Base{...}] names some fields; the others are zero. So
    does [literal], whose arguments are the fields the catalogue ever names. *)
Definition literal (rt : reflect.Kind) (nm cl lux un : string) (fac : float32)
    (w : bool) (cs : option (list string))
    (fromHP : option (Z -> outcome any))
    (toHP : option (any -> outcome (Z * option error))) : Base :=
  {| customFromHP := fromHP; customToHP := toHP; codes := cs;
     returnType := rt; name := nm; class := cl; luxtronikName := lux;
     unit_ := un; rawValue := 0; prevRawValue := 0; factor := fac;
     writeable := w |}.

Definition NewEnergy (nm : string) : Base :=
  literal reflect.Float32 "energy" classEnergy nm "kWh" (F32.of_ratio 1 10)
          false None None None.

Definition NewCelsius (nm : string) (w : bool) : Base :=
  literal reflect.Float32 "celsius" classTemperature nm "°C" (F32.of_ratio 1 10)
          w None None None.

Definition NewKelvin (nm : string) (w : bool) : Base :=
  literal reflect.Float32 "kelvin" classTemperature nm "K" (F32.of_ratio 1 10)
          w None None None.

Definition NewVoltage (nm : string) : Base :=
  literal reflect.Float32 "Voltage" "voltage" nm "V" (F32.of_ratio 1 10)
          false None None None.

Definition NewFlow (nm : string) : Base :=
  literal reflect.Float32 "Flow" "flow" nm "l/h" F32.zero false None None None.

Definition NewPressure (nm : string) : Base :=
  literal reflect.Float32 "Pressure" "pressure" nm "bar" (F32.of_ratio 1 100)
          false None None None.

Definition NewUnknown (nm : string) : Base :=
  literal reflect.Uint32 classNone "none" nm "" F32.zero false None None None.

Definition NewHeatingMode (nm : string) (w : bool) : Base :=
  literal reflect.String "HeatingMode" classSelection nm "" F32.zero w
          (Some (slice_literal
                   [(0, "Automatic"); (1, "Second heatsource"); (2, "Party");
                    (3, "Holidays"); (4, "Off")]%nat))
          None None.

Definition NewHotWaterMode (nm : string) (w : bool) : Base :=
  set_name "HotWaterMode" (NewHeatingMode nm w).

Definition NewPoolMode (nm : string) (w : bool) : Base :=
  let b := NewHeatingMode nm w in
  let b := set_codes (<[1%nat := ""]> <$> codes b) b in
  set_name "PoolMode" b.

Definition NewAccessLevel (nm : string) (w : bool) : Base :=
  literal reflect.String "AccessLevel" "selection" nm "" F32.zero w
          (Some (slice_literal
                   [(0, "user"); (1, "after sales service"); (2, "manufacturer");
                    (3, "installer")]%nat))
          None None.

Definition NewMixedCircuitMode (nm : string) (w : bool) : Base :=
  literal reflect.String "MixedCircuitMode" "selection" nm "" F32.zero w
          (Some (slice_literal
                   [(0, "Automatic"); (2, "Party"); (3, "Holidays"); (4, "Off")]%nat))
          None None.

Definition NewFrequency (nm : string) : Base :=
  literal reflect.Float32 "Frequency" "frequency" nm "Hz" F32.zero false None None None.

Definition NewIcon (nm : string) : Base :=
  literal reflect.Uint32 "Icon" "icon" nm "" F32.zero false None None None.

Definition NewPercent2 (nm : string) : Base :=
  literal reflect.Uint32 "Percent2" "percent" nm "%" F32.zero false None None None.

Definition NewSpeed (nm : string) : Base :=
  literal reflect.Uint32 "Speed" "speed" nm "rpm" F32.zero false None None None.

Definition NewPower (nm : string) : Base :=
  literal reflect.Uint32 "Power" "power" nm "W" F32.zero false None None None.

Definition NewCount (nm : string) : Base :=
  literal reflect.Uint32 "Count" classCount nm "" F32.zero false None None None.

Definition NewLevel (nm : string) : Base :=
  literal reflect.Uint32 "Level" classCount nm "" F32.zero false None None None.

Definition NewErrorcode (nm : string) : Base :=
  literal reflect.Uint32 "Errorcode" "value" nm "" F32.zero false None None None.

Definition NewSeconds (nm : string) : Base :=
  literal reflect.Int64 "seconds" classDuration nm "s" F32.zero false None None None.

Definition NewHours (nm : string) (w : bool) : Base :=
  literal reflect.Int64 "hours" classDuration nm "h" (F32.of_ratio 1 10)
          w None None None.

Definition NewMinutes (nm : string) (w : bool) : Base :=
  literal reflect.Int64 "minutes" classDuration nm "min" F32.zero w None None None.

Definition NewMajorMinorVersion (nm : string) : Base :=
  literal reflect.String "MajorMinorVersion" "version" nm "" F32.zero false None
          (Some (fun val =>
                   if 0 <? val
                   then Done (AString (pretty (val / 100) +:+ "." +:+ pretty (val mod 100)))
                   else Done (AString "0")))
          (Some (fun _ => Done (0, Some ErrWritingNotAllowed))).

Definition NewCoolingMode (nm : string) (w : bool) : Base :=
  literal reflect.String "CoolingMode" "selection" nm "" F32.zero w
          (Some (slice_literal [(0, "Off"); (1, "Automatic")]%nat))
          None None.

Definition NewSolarMode (nm : string) (w : bool) : Base :=
  set_name "SolarMode" (NewCoolingMode nm w).

Definition NewVentilationMode (nm : string) (w : bool) : Base :=
  literal reflect.String "VentilationMode" "selection" nm "" F32.zero w
          (Some (slice_literal
                   [(0, "Automatic"); (1, "Party"); (2, "Holidays"); (3, "Off")]%nat))
          None None.

Definition NewBool (nm : string) (w : bool) : Base :=
  literal reflect.Bool "Bool" "boolean" nm "" F32.zero w None
          (Some (fun val => Done (ABool (val =? 1))))
          (Some (fun val => if cast.ToBool val then Done (1, None) else Done (0, None))).

(** [binary.BigEndian.PutUint32]: the four octets of a [uint32], high first. *)
Definition octets (v : Z) : list Z :=
  [(v / 2 ^ 24) mod 256; (v / 2 ^ 16) mod 256; (v / 2 ^ 8) mod 256; v mod 256].

Definition NewIPV4Address (nm : string) : Base :=
  literal reflect.String "IPAddress" "string" nm "" F32.zero false None
          (Some (fun val =>
                   match octets val with
                   | [a; b; c; d] =>
                       Done (AString (pretty a +:+ "." +:+ pretty b +:+ "."
                                      +:+ pretty c +:+ "." +:+ pretty d))
                   | _ => Done (AString "")
                   end))
          (Some (fun _ => Panic "todo implement")).

Definition NewHeatpumpCode (nm : string) : Base :=
  literal reflect.String "HeatpumpCode" classSelection nm "" F32.zero false
          (Some (slice_literal
                   [(0, "ERC"); (1, "SW1"); (2, "SW2"); (3, "WW1"); (4, "WW2");
                    (5, "L1I"); (6, "L2I"); (7, "L1A"); (8, "L2A"); (9, "KSW");
                    (10, "KLW"); (11, "SWC"); (12, "LWC"); (13, "L2G"); (14, "WZS");
                    (15, "L1I407"); (16, "L2I407"); (17, "L1A407"); (18, "L2A407");
                    (19, "L2G407"); (20, "LWC407"); (21, "L1AREV"); (22, "L2AREV");
                    (23, "WWC1"); (24, "WWC2"); (25, "L2G404"); (26, "WZW");
                    (27, "L1S"); (28, "L1H"); (29, "L2H"); (30, "WZWD"); (31, "ERC");
                    (40, "WWB_20"); (41, "LD5"); (42, "LD7"); (43, "SW 37_45");
                    (44, "SW 58_69"); (45, "SW 29_56"); (46, "LD5 (230V)");
                    (47, "LD7 (230 V)"); (48, "LD9"); (49, "LD5 REV"); (50, "LD7 REV");
                    (51, "LD5 REV 230V"); (52, "LD7 REV 230V"); (53, "LD9 REV 230V");
                    (54, "SW 291"); (55, "LW SEC"); (56, "HMD 2"); (57, "MSW 4");
                    (58, "MSW 6"); (59, "MSW 8"); (60, "MSW 10"); (61, "MSW 12");
                    (62, "MSW 14"); (63, "MSW 17"); (64, "MSW 19"); (65, "MSW 23");
                    (66, "MSW 26"); (67, "MSW 30"); (68, "MSW 4S"); (69, "MSW 6S");
                    (70, "MSW 8S"); (71, "MSW 10S"); (72, "MSW 13S"); (73, "MSW 16S");
                    (74, "MSW2-6S"); (75, "MSW4-16"); (76, "TODO unknown 76");
                    (77, "TODO unknown 77"); (78, "TODO unknown 78");
                    (79, "TODO unknown 79"); (80, "TODO unknown 80");
                    (81, "TODO unknown 81"); (82, "TODO unknown 82")]%nat))
          None None.

Definition NewBivalenceLevel (nm : string) : Base :=
  literal reflect.String "BivalenceLevel" "selection" nm "" F32.zero false
          (Some (slice_literal
                   [(1, "one compressor allowed to run");
                    (2, "two compressors allowed to run");
                    (3, "additional heat generator allowed to run")]%nat))
          None None.

Definition NewOperationMode (nm : string) : Base :=
  literal reflect.String "OperationMode" "selection" nm "" F32.zero false
          (Some (slice_literal
                   [(0, "heating"); (1, "hot water"); (2, "swimming pool/solar");
                    (3, "evu"); (4, "defrost"); (5, "no request");
                    (6, "heating external source"); (7, "cooling")]%nat))
          None None.

(** The array [charTable]: the listed characters map to themselves, every
    other code below 127 to the empty string. *)
Definition charTable : list string :=
  array_literal 127
    (map (fun c => (nat_of_ascii c, String c EmptyString))
         (list_ascii_of_string
            "#!$%&'*+-.0123456789ABCDEFGHIJKLMNOPQRSTUWVXYZ^_`abcdefghijklmnopqrstuvwxyz|~")).

(** [fmt.Sprintf("%x", u)] for an unsigned [u]. *)
Definition hex (u : Z) : string :=
  HexadecimalString.NilZero.string_of_uint (N.to_hex_uint (Z.to_N u)).

Definition NewCharacter (nm : string) : Base :=
  literal reflect.String "Character" "string" nm "" F32.zero false None
          (Some (fun u =>
                   if u =? 0 then Done (AString "")
                   else if u <? Z.of_nat (length charTable)
                   then match index charTable u with
                        | Done s => Done (AString s)
                        | Panic msg => Panic msg
                        end
                   else Done (AString ("char " +:+ pretty u +:+ ":" +:+ hex u
                                       +:+ " not found"))))
          None.

Definition NewSwitchoffFile (nm : string) : Base :=
  literal reflect.String "SwitchoffFile" "selection" nm "" F32.zero false
          (Some (slice_literal
                   [(1, "heatpump error"); (2, "system error"); (3, "evu lock");
                    (4, "operation mode second heat generator"); (5, "air defrost");
                    (6, "maximal usage temperature"); (7, "minimal usage temperature");
                    (8, "lower usage limit"); (9, "no request"); (11, "flow rate");
                    (19, "PV max")]%nat))
          None None.

Definition NewMainMenuStatusLine1 (nm : string) : Base :=
  literal reflect.String "MainMenuStatusLine1" "selection" nm "" F32.zero false
          (Some (slice_literal
                   [(0, "heatpump running"); (1, "heatpump idle");
                    (2, "heatpump coming"); (3, "errorcode slot 0"); (4, "defrost");
                    (5, "waiting on LIN connection"); (6, "compressor heating up");
                    (7, "pump forerun")]%nat))
          None None.

Definition NewMainMenuStatusLine2 (nm : string) : Base :=
  literal reflect.String "MainMenuStatusLine2" "selection" nm "" F32.zero false
          (Some (slice_literal [(0, "since"); (1, "in")]%nat))
          None None.

Definition NewMainMenuStatusLine3 (nm : string) : Base :=
  literal reflect.String "MainMenuStatusLine3" "selection" nm "" F32.zero false
          (Some (slice_literal
                   [(0, "heating"); (1, "no request"); (2, "grid switch on delay");
                    (3, "cycle lock"); (4, "lock time"); (5, "domestic water");
                    (6, "info bake out program"); (7, "defrost"); (8, "pump forerun");
                    (9, "thermal desinfection"); (10, "cooling");
                    (12, "swimming pool/solar");
                    (13, "heating external energy source");
                    (14, "domestic water external energy source");
                    (16, "flow monitoring");
                    (17, "second heat generator 1 active")]%nat))
          None None.

Definition NewSecOperationMode (nm : string) : Base :=
  literal reflect.String "SecOperationMode" "selection" nm "" F32.zero false
          (Some (slice_literal
                   [(0, "off"); (1, "cooling"); (2, "heating"); (3, "fault");
                    (4, "transition"); (5, "defrost"); (6, "waiting"); (7, "waiting");
                    (8, "transition"); (9, "stop"); (10, "manual");
                    (11, "simulation start"); (12, "evu lock")]%nat))
          None None.

Section Catalogue.
Variable tc : textconv.

Definition NewHours2 (nm : string) (w : bool) : Base :=
  literal reflect.Int64 "hours2" classDuration nm "h" F32.zero w None
          (Some (fun val => Done (AUint32 (U32.wrap (1 + val / 2)))))
          (Some (fun val => Done (U32.wrap ((cast.ToUint32 tc val - 1) * 2), None))).

Definition NewTime (nm : string) : Base :=
  literal reflect.String "time" classTime nm "ts" F32.zero false None
          (Some (fun val =>
                   if val <? 1 then Done (AString "")
                   else Done (AString (FormatTime tc val))))
          (Some (fun val =>
                   let '(sec, err) := ParseTime tc (cast.ToString tc val) in
                   Done (U32.wrap sec, err))).

End Catalogue.

(** ** Pointers and the register map

    [DataTypeMap] is [map[int]*Base]: the map holds pointers, the
    descriptors live in the heap, and two keys may hold the same pointer. *)

Abbreviation loc := positive (only parsing).
(** A [*Base]; [None] is [nil]. *)
Abbreviation ptr := (option positive) (only parsing).
Abbreviation heap := (gmap positive Base) (only parsing).
Abbreviation DataTypeMap := (gmap Z (option positive)) (only parsing).

(** A method call [p.m(...)] through a pointer: a nil receiver panics at the
    first field access. (A non-nil pointer always points into the heap in Go;
    the model gives the same panic to a pointer outside it.) *)
Definition call {A} (p : ptr) (m : method A) (h : heap) : outcome A * heap :=
  match p with
  | None => (Panic "nil pointer dereference", h)
  | Some l =>
      match h !! l with
      | None => (Panic "nil pointer dereference", h)
      | Some b => let r := m b in (r.1, <[l := r.2]> h)
      end
  end.

(** [pm[k]]: the zero value [nil] for a key that is not in the map. *)
Definition at_key (pm : DataTypeMap) (k : Z) : ptr := default None (pm !! k).

(** The loop [for idx, raw := range data { pm[idx].SetRaw(raw) }], entered at
    index [idx] with [data] still to go. *)
Fixpoint SetRawValues_from (pm : DataTypeMap) (idx : Z) (data : list Z) (h : heap)
  : outcome unit * heap :=
  match data with
  | [] => (Done tt, h)
  | raw :: rest =>
      match call (at_key pm idx) (SetRaw raw) h with
      | (Done _, h') => SetRawValues_from pm (idx + 1) rest h'
      | (Panic msg, h') => (Panic msg, h')
      end
  end.

Definition SetRawValues (pm : DataTypeMap) (data : list Z) (h : heap)
  : outcome (option error) * heap :=
  let dl := Z.of_nat (length data) in
  let pml := Z.of_nat (size pm) in
  if negb (dl =? pml)
  then (Done (Some (Errorf
          "DataTypeMap.SetRawValues length of data:%d not equal to length of DataTypeMap:%d"
          [AInt dl; AInt pml])), h)
  else match SetRawValues_from pm 0 data h with
       | (Done _, h') => (Done None, h')
       | (Panic msg, h') => (Panic msg, h')
       end.

(** [GetVersion]: the decoded strings of slots 81..87, concatenated. The type
    assertion [.(string)] panics on any other dynamic type. *)
Fixpoint GetVersion_from (pm : DataTypeMap) (i : Z) (n : nat) (buf : string) (h : heap)
  : outcome string * heap :=
  match n with
  | O => (Done buf, h)
  | S n' =>
      match call (at_key pm i) FromHeatPump h with
      | (Done (AString s), h') => GetVersion_from pm (i + 1) n' (buf +:+ s) h'
      | (Done _, h') => (Panic "interface conversion: interface {} is not string", h')
      | (Panic msg, h') => (Panic msg, h')
      end
  end.

Definition GetVersion (pm : DataTypeMap) (h : heap) : outcome string * heap :=
  GetVersion_from pm 81 7 "" h.

(** ** The transport and the wire codec *)

Definition DefaultPort : string := "8889".
Definition ParametersWrite : Z := 3002.
Definition ParametersRead : Z := 3003.
Definition CalculationsRead : Z := 3004.
Definition VisibilitiesRead : Z := 3005.
Definition SocketReadSizePeek : nat := 16.

Definition byte_to_Z (b : byte) : Z := Z.of_N (Byte.to_N b).
Definition byte_of_Z (z : Z) : byte := default x00 (Byte.of_N (Z.to_N (z mod 256))).

(** One thing the peer makes available to a [Read]: some bytes, possibly with
    an error that the [Read] delivering the last of them reports. *)
Inductive arrival : Type := Arrive (bs : list byte) (err : option error).

(** A scripted [net.Conn]: what is still to arrive, what has been written,
    and the error (if any) every [Write] reports. *)
Record Conn : Type := {
  inbound : list arrival;
  outbound : list byte;
  write_error : option error
}.

Definition set_inbound (i : list arrival) (cn : Conn) : Conn :=
  {| inbound := i; outbound := outbound cn; write_error := write_error cn |}.

(** [conn.Read(p)] with [len(p) = n]: at most [n] bytes of the next arrival;
    [io.EOF] when nothing is left. Returns the bytes stored at the front of
    [p] (their number is Go's [n]) and the error. *)
Definition conn_Read (n : nat) (cn : Conn) : (list byte * option error) * Conn :=
  match inbound cn with
  | [] => (([], Some EOF), cn)
  | Arrive bs err :: rest =>
      if (length bs <=? n)%nat
      then ((bs, err), set_inbound rest cn)
      else ((take n bs, None), set_inbound (Arrive (drop n bs) err :: rest) cn)
  end.

(** [conn.Write(p)]. *)
Definition conn_Write (p : list byte) (cn : Conn) : (Z * option error) * Conn :=
  match write_error cn with
  | Some e => ((0, Some e), cn)
  | None =>
      ((Z.of_nat (length p), None),
       {| inbound := inbound cn; outbound := outbound cn ++ p;
          write_error := None |})
  end.

(** The struct [Client]; [conn] is [None] before [Connect]. The field [opts]
    is left out: none of the operations below reads it. *)
Record Client : Type := {
  host : string;
  port : string;
  conn : option Conn
}.

Definition set_conn (cn : Conn) (c : Client) : Client :=
  {| host := host c; port := port c; conn := Some cn |}.

(** [binary.BigEndian.Uint32(b)]: it first touches [b[3]]. *)
Definition BigEndian_Uint32 (b : list byte) : outcome Z :=
  match b with
  | b0 :: b1 :: b2 :: b3 :: _ =>
      Done (Z.lor (Z.lor (Z.lor (byte_to_Z b3) (Z.shiftl (byte_to_Z b2) 8))
                         (Z.shiftl (byte_to_Z b1) 16))
                  (Z.shiftl (byte_to_Z b0) 24))
  | _ => Panic "index out of range [3]"
  end.

Definition readUint32 (c : Client) : outcome (Z * option error) * Client :=
  match conn c with
  | None => (Panic "nil pointer dereference", c)
  | Some cn =>
      let r := conn_Read SocketReadSizeInteger cn in
      let c' := set_conn r.2 c in
      match r.1.2 with
      | Some e => (Done (0, Some e), c')
      | None =>
          match BigEndian_Uint32 r.1.1 with
          | Done v => (Done (v, None), c')
          | Panic msg => (Panic msg, c')
          end
      end
  end.

Definition readChar (c : Client) : outcome (byte * option error) * Client :=
  match conn c with
  | None => (Panic "nil pointer dereference", c)
  | Some cn =>
      let r := conn_Read SocketReadSizeChar cn in
      let c' := set_conn r.2 c in
      match r.1.2 with
      | Some e => (Done (x00, Some e), c')
      | None =>
          match r.1.1 with
          | [b0] => (Done (b0, None), c')
          | bs =>
              (Done (x00, Some (Errorf "read length %d is not equal to char size of %d"
                                       [AInt (Z.of_nat (length bs));
                                        AInt (Z.of_nat SocketReadSizeChar)])), c')
          end
      end
  end.

(** The loop of [netRead], with [cur] bytes of the [end_] wanted already in
    [filled]. [None]: the loop is still running when the fuel is spent. *)
Fixpoint netRead_loop (fuel : nat) (end_ cur : nat) (filled : list byte) (cn : Conn)
  : option ((list byte * Z * option error) * Conn) :=
  match fuel with
  | O => None
  | S fuel' =>
      let r := conn_Read (end_ - cur) cn in
      let cur' := (cur + length r.1.1)%nat in
      let filled' := filled ++ r.1.1 in
      match r.1.2 with
      | Some e =>
          Some ((filled', Z.of_nat cur',
                 Some (Wrapf "netRead failed to read with error: %w" [] e)), r.2)
      | None =>
          if (cur' =? end_)%nat
          then Some ((filled', Z.of_nat end_, None), r.2)
          else netRead_loop fuel' end_ cur' filled' r.2
      end
  end.

(** [netRead(b)] with [len(b) = n]: the bytes stored in [b], the count and
    the error returned. Every turn of the loop uses up an arrival or ends the
    loop, so one more turn than there are arrivals is enough fuel. *)
Definition netRead (n : nat) (c : Client)
  : outcome (option (list byte * Z * option error)) * Client :=
  match conn c with
  | None => (Panic "nil pointer dereference", c)
  | Some cn =>
      match netRead_loop (S (length (inbound cn))) n 0 [] cn with
      | Some (r, cn') => (Done (Some r), set_conn cn' c)
      | None => (Done None, c)
      end
  end.

(** [binary.Write(&buf, binary.BigEndian, data)] for [data []int32]: four
    octets per word, two's complement; it cannot fail for this type. *)
Definition int32_bytes (v : Z) : list byte := byte_of_Z <$> octets (U32.wrap v).

Definition netWrite (data : list Z) (c : Client) : outcome (Z * option error) * Client :=
  let buf := data ≫= int32_bytes in
  match conn c with
  | None => (Panic "nil pointer dereference", c)
  | Some cn =>
      let r := conn_Write buf cn in
      (Done r.1, set_conn r.2 c)
  end.

(** ** The session's read framing *)

(** The loop [for i := uint32(0); i < length; i++] of [readFromHeatPump]:
    [n] entries still to read, the next one at index [i]; [rawValues] holds
    the entries read so far. *)
Fixpoint read_entries (cmd : Z) (n : nat) (i : Z) (rawValues : list Z) (c : Client)
  : outcome (list Z + error) * Client :=
  match n with
  | O => (Done (inl rawValues), c)
  | S n' =>
      if cmd =? VisibilitiesRead
      then match readChar c with
           | (Done (_, Some err), c') =>
               (Done (inr (Wrapf
                  "readFromHeatPump.readUint32.paramID at index %d failed: %w"
                  [AUint32 i] err)), c')
           | (Done (char, None), c') =>
               read_entries cmd n' (i + 1) (rawValues ++ [byte_to_Z char]) c'
           | (Panic msg, c') => (Panic msg, c')
           end
      else match readUint32 c with
           | (Done (_, Some err), c') =>
               (Done (inr (Wrapf
                  "readFromHeatPump.readUint32.paramID at index %d failed: %w"
                  [AUint32 i] err)), c')
           | (Done (paramID, None), c') =>
               read_entries cmd n' (i + 1) (rawValues ++ [paramID]) c'
           | (Panic msg, c') => (Panic msg, c')
           end
  end.

Definition readFromHeatPump (pm : DataTypeMap) (data : list Z) (st : Client * heap)
  : outcome (option error) * (Client * heap) :=
  let '(c, h) := st in
  match data with
  | cmd0 :: _ :: _ =>
    match netWrite data c with
    | (Panic msg, c) => (Panic msg, (c, h))
    | (Done (_, Some err), c) =>
        (Done (Some (Wrapf "readFromHeatPump.netWrite to send %d failed: %w"
                           [AInt cmd0] err)), (c, h))
    | (Done (_, None), c) =>
    match readUint32 c with
    | (Panic msg, c) => (Panic msg, (c, h))
    | (Done (_, Some err), c) =>
        (Done (Some (Wrapf "readFromHeatPump.readUint32.cmd failed: %w" [] err)), (c, h))
    | (Done (cmd, None), c) =>
    let after_status :=
      if cmd0 =? CalculationsRead
      then match readUint32 c with
           | (Panic msg, c) => (Panic msg, c)
           | (Done (_, err), c) => (Done err, c)
           end
      else (Done None, c) in
    match after_status with
    | (Panic msg, c) => (Panic msg, (c, h))
    | (Done (Some err), c) =>
        (Done (Some (Wrapf "readFromHeatPump.readUint32.cmd failed: %w" [] err)), (c, h))
    | (Done None, c) =>
    if negb (cmd =? U32.wrap cmd0)
    then (Done (Some (Errorf "readFromHeatPump. received invalid command: %d want: %d"
                             [AUint32 cmd; AInt cmd0])), (c, h))
    else
    match readUint32 c with
    | (Panic msg, c) => (Panic msg, (c, h))
    | (Done (_, Some err), c) =>
        (Done (Some (Wrapf "readFromHeatPump.readUint32.length failed: %w" [] err)), (c, h))
    | (Done (length, None), c) =>
    match read_entries cmd0 (Z.to_nat length) 0 [] c with
    | (Panic msg, c) => (Panic msg, (c, h))
    | (Done (inr err), c) => (Done (Some err), (c, h))
    | (Done (inl rawValues), c) =>
        let r := SetRawValues pm rawValues h in (r.1, (c, r.2))
    end
    end
    end
    end
    end
  | _ => (Done (Some (Errorf "" [])), (c, h))
  end.

Definition readParameters (pm : DataTypeMap) := readFromHeatPump pm [ParametersRead; 0].
Definition readCalculations (pm : DataTypeMap) := readFromHeatPump pm [CalculationsRead; 0].
Definition readVisibilities (pm : DataTypeMap) := readFromHeatPump pm [VisibilitiesRead; 0].

(** ** Vocabulary of the statements *)

(** The descriptors the catalogue's constructors return. *)
Inductive constructed (tc : textconv) : Base -> Prop :=
| constructed_Energy nm : constructed tc (NewEnergy nm)
| constructed_Celsius nm w : constructed tc (NewCelsius nm w)
| constructed_Kelvin nm w : constructed tc (NewKelvin nm w)
| constructed_Voltage nm : constructed tc (NewVoltage nm)
| constructed_Flow nm : constructed tc (NewFlow nm)
| constructed_Pressure nm : constructed tc (NewPressure nm)
| constructed_Unknown nm : constructed tc (NewUnknown nm)
| constructed_HeatingMode nm w : constructed tc (NewHeatingMode nm w)
| constructed_HotWaterMode nm w : constructed tc (NewHotWaterMode nm w)
| constructed_PoolMode nm w : constructed tc (NewPoolMode nm w)
| constructed_AccessLevel nm w : constructed tc (NewAccessLevel nm w)
| constructed_MixedCircuitMode nm w : constructed tc (NewMixedCircuitMode nm w)
| constructed_Frequency nm : constructed tc (NewFrequency nm)
| constructed_Icon nm : constructed tc (NewIcon nm)
| constructed_Percent2 nm : constructed tc (NewPercent2 nm)
| constructed_Speed nm : constructed tc (NewSpeed nm)
| constructed_Power nm : constructed tc (NewPower nm)
| constructed_Count nm : constructed tc (NewCount nm)
| constructed_Level nm : constructed tc (NewLevel nm)
| constructed_Errorcode nm : constructed tc (NewErrorcode nm)
| constructed_Seconds nm : constructed tc (NewSeconds nm)
| constructed_Hours nm w : constructed tc (NewHours nm w)
| constructed_Hours2 nm w : constructed tc (NewHours2 tc nm w)
| constructed_Minutes nm w : constructed tc (NewMinutes nm w)
| constructed_Time nm : constructed tc (NewTime tc nm)
| constructed_MajorMinorVersion nm : constructed tc (NewMajorMinorVersion nm)
| constructed_CoolingMode nm w : constructed tc (NewCoolingMode nm w)
| constructed_SolarMode nm w : constructed tc (NewSolarMode nm w)
| constructed_VentilationMode nm w : constructed tc (NewVentilationMode nm w)
| constructed_Bool nm w : constructed tc (NewBool nm w)
| constructed_IPV4Address nm : constructed tc (NewIPV4Address nm)
| constructed_HeatpumpCode nm : constructed tc (NewHeatpumpCode nm)
| constructed_BivalenceLevel nm : constructed tc (NewBivalenceLevel nm)
| constructed_OperationMode nm : constructed tc (NewOperationMode nm)
| constructed_Character nm : constructed tc (NewCharacter nm)
| constructed_SwitchoffFile nm : constructed tc (NewSwitchoffFile nm)
| constructed_MainMenuStatusLine1 nm : constructed tc (NewMainMenuStatusLine1 nm)
| constructed_MainMenuStatusLine2 nm : constructed tc (NewMainMenuStatusLine2 nm)
| constructed_MainMenuStatusLine3 nm : constructed tc (NewMainMenuStatusLine3 nm)
| constructed_SecOperationMode nm : constructed tc (NewSecOperationMode nm).

(** A method that leaves its receiver as it found it. *)
Definition read_only {A} (m : method A) : Prop := forall b, after m b = b.

(** A text library that refuses every text and prints nothing: enough to run
    the codec on values that carry no text to convert. *)
Definition refusing_textconv : textconv :=
  {| ParseInt := fun _ => None;
     ParseFloat32 := fun _ => None;
     FormatFloat32 := fun _ => "";
     DurationString := fun _ => "";
     FormatTime := fun _ => "";
     ParseTime := fun _ => (0, Some (Errorf "parsing time" [])) |}.

(** A register map is dense over a heap when every slot [0 .. size-1] holds a
    pointer to a descriptor. *)
Definition dense (pm : DataTypeMap) (h : heap) : Prop :=
  forall i : Z, 0 <= i < Z.of_nat (size pm) ->
    exists l b, pm !! i = Some (Some l) /\ h !! l = Some b.

(** No two slots share a descriptor. *)
Definition no_alias (pm : DataTypeMap) : Prop :=
  forall (i j : Z) (l : loc),
    pm !! i = Some (Some l) -> pm !! j = Some (Some l) -> i = j.

(** The descriptor a slot points to. *)
Definition descriptor (pm : DataTypeMap) (h : heap) (i : Z) : option Base :=
  at_key pm i ≫= (h !!.).

(** The calls [pm[idx].SetRaw(raw)], one after the other. *)
Definition setter_calls (pm : DataTypeMap) (calls : list (Z * Z)) (h : heap) : heap :=
  foldl (fun h c => (call (at_key pm c.1) (SetRaw c.2) h).2) h calls.

(** The slot numbers [0 .. n-1]. *)
Definition slots (n : nat) : list Z := Z.of_nat <$> seq 0 n.

(** A connected client, and transports that deliver every word whole. *)
Definition connected (cn : Conn) : Client :=
  {| host := "192.168.0.121"; port := DefaultPort; conn := Some cn |}.

Definition whole_words (ws : list Z) : list arrival :=
  (fun w => Arrive (int32_bytes w) None) <$> ws.

Definition scripted (arrivals : list arrival) : Conn :=
  {| inbound := arrivals; outbound := []; write_error := None |}.

(** The raw values of the slots [0 .. n-1] of a map. *)
Definition raw_values (pm : DataTypeMap) (h : heap) (n : nat) : list (option Z) :=
  (fun i => rawValue <$> descriptor pm h i) <$> slots n.

(** A small bank of three slots, to run the model on. *)
Definition bank3_heap : heap :=
  <[1%positive := NewUnknown "ID_WEB_Temperatur_TVL"]>
    (<[2%positive := NewCelsius "ID_WEB_Temperatur_TRL" false]>
       (<[3%positive := NewCount "ID_WEB_Zaehler_BetrZeitVD1"]> ∅)).

Definition bank3 : DataTypeMap :=
  <[0 := Some 1%positive]> (<[1 := Some 2%positive]> (<[2 := Some 3%positive]> ∅)).

(** Slots [k .. k+n-1] point to descriptors of the heap. *)
Definition slots_valid (pm : DataTypeMap) (h : heap) (k n : nat) : Prop :=
  forall i : nat, (k <= i < k + n)%nat ->
    exists l b, pm !! Z.of_nat i = Some (Some l) /\ h !! l = Some b.

(** The loop's calls from slot [k] on: slot numbers paired with raw values. *)
Definition calls_from (k : nat) (data : list Z) : list (Z * Z) :=
  zip (Z.of_nat <$> seq k (length data)) data.

(** The connection after the request words [data] have been written. *)
Definition sent (data : list Z) (cn : Conn) : Conn :=
  {| inbound := inbound cn; outbound := outbound cn ++ (data ≫= int32_bytes);
     write_error := None |}.

(** The reply to a read command that is not [VisibilitiesRead], every word
    arriving whole: the echo, the status word (for [CalculationsRead] only),
    the length and the entries. *)
Definition reply (cmd0 : Z) (st : Z) (len : Z) (entries : list Z) : list arrival :=
  whole_words (cmd0 :: (if cmd0 =? CalculationsRead then [st] else [])
                    ++ len :: entries).

(** What is still to arrive after four bytes of the first arrival are taken. *)
Definition after_four (bs : list byte) (err : option error) (rest : list arrival)
  : list arrival :=
  if (length bs <=? 4)%nat then rest else Arrive (drop 4 bs) err :: rest.

(** A map of size two that is not dense: slots 0 and 5. *)
Definition sparse_bank : DataTypeMap :=
  <[0 := Some 1%positive]> (<[5 := Some 2%positive]> ∅).

(** Seven character slots 81..87 holding the codes of "1.23.45". *)
Definition version_heap : heap :=
  list_to_map
    ((fun kv : positive * Z => (kv.1, set_rawValue kv.2 (NewCharacter "ID_WEB_SoftStand")))
       <$> [(81%positive, 49); (82%positive, 46); (83%positive, 50); (84%positive, 51);
            (85%positive, 46); (86%positive, 52); (87%positive, 53)]).

Definition version_bank : DataTypeMap :=
  list_to_map ((fun k : positive => (Z.pos k, Some k)) <$> [81; 82; 83; 84; 85; 86; 87]%positive).

(** ** Model of the remaining operations, and vocabulary of their statements *)

(** [IterateSorted(cb)]: the keys of the map are collected, sorted
    ascending ([sort.Slice] with [keys[i] < keys[j]]; the keys of a map are
    distinct, so every correct sort returns the same slice), and the
    callback is called on each key with the pointer stored under it. The
    callback is a state transformer that returns or panics; a panic ends the
    iteration. *)
Definition sorted_keys (pm : DataTypeMap) : list Z :=
  merge_sort Z.le ((map_to_list pm).*1).

Fixpoint visit_keys {S} (pm : DataTypeMap) (cb : Z -> ptr -> S -> outcome unit * S)
    (keys : list Z) (s : S) : outcome unit * S :=
  match keys with
  | [] => (Done tt, s)
  | key :: rest =>
      match cb key (at_key pm key) s with
      | (Done _, s') => visit_keys pm cb rest s'
      | (Panic msg, s') => (Panic msg, s')
      end
  end.

Definition IterateSorted {S} (pm : DataTypeMap)
    (cb : Z -> ptr -> S -> outcome unit * S) (s : S) : outcome unit * S :=
  visit_keys pm cb (sorted_keys pm) s.

(** A callback that only records what it is called with. *)
Definition record_visit (key : Z) (p : ptr) (seen : list (Z * ptr))
  : outcome unit * list (Z * ptr) :=
  (Done tt, seen ++ [(key, p)]).

(** The bytes a list of arrivals carries, in order. *)
Definition stream_bytes (arrivals : list arrival) : list byte :=
  arrivals ≫= (fun a => match a with Arrive bs _ => bs end).

(** No arrival carries an error. *)
Definition error_free (arrivals : list arrival) : Prop :=
  Forall (fun a => match a with Arrive _ err => err = None end) arrivals.

(** What a connected client still has to read. *)
Definition unread (c : Client) : list arrival :=
  match conn c with Some cn => inbound cn | None => [] end.

(** Two descriptors that differ at most in raw and previous raw value. *)
Definition same_register (b b' : Base) : Prop :=
  set_rawValue 0 (set_prevRawValue 0 b) = set_rawValue 0 (set_prevRawValue 0 b').

(** A catalogue descriptor at any point of its life: a constructor's result
    with any raw and previous raw value. *)
Definition in_service (tc : textconv) (b : Base) : Prop :=
  exists b0 raw prev,
    constructed tc b0 /\ b = set_rawValue raw (set_prevRawValue prev b0).

(** Structural equality of floats, and the check run on every raw value of
    the tenths round trip. *)
Definition spec_float_eqb (x y : spec_float) : bool :=
  match x, y with
  | S754_zero s, S754_zero s' => Bool.eqb s s'
  | S754_infinity s, S754_infinity s' => Bool.eqb s s'
  | S754_nan, S754_nan => true
  | S754_finite s m e, S754_finite s' m' e' =>
      Bool.eqb s s' && (m =? m')%positive && (e =? e')
  | _, _ => false
  end.

Definition tenths_check (raw : Z) : bool :=
  let decoded :=
    roundFloat (F64.mul (F64.of_Z raw) (F64.of_float32 (F32.of_ratio 1 10))) 3 in
  let encoded := uint32_of_float (F32.div decoded (F32.of_ratio 1 10)) in
  spec_float_eqb decoded (F32.of_ratio raw 10)
  && (raw - 1 <=? encoded) && (encoded <=? raw).

(** * Properties *)

(** ** Methods that only read *)

Lemma read_only_ret {A} (a : A) : read_only (ret a).
Proof. intros b. reflexivity. Qed.

Lemma read_only_panic {A} (msg : string) : read_only (@panic A msg).
Proof. intros b. reflexivity. Qed.

Lemma read_only_read {A} (field : Base -> A) : read_only (read field).
Proof. intros b. reflexivity. Qed.

Lemma read_only_lift {A} (o : outcome A) : read_only (lift o).
Proof. intros b. reflexivity. Qed.

Lemma read_only_bind {A B} (m : method A) (k : A -> method B) :
  read_only m -> (forall a, read_only (k a)) -> read_only (bind m k).
Proof.
  intros Hm Hk b. unfold after, bind.
  specialize (Hm b). unfold after in Hm.
  destruct (m b) as [[a | msg] b']; simpl in *; subst b'.
  - apply Hk.
  - reflexivity.
Qed.

Create HintDb read_only.
#[local] Hint Resolve read_only_ret read_only_panic read_only_read
  read_only_lift : read_only.

Ltac read_only_step :=
  first
    [ apply read_only_bind; [ | intros ? ]
    | solve [ auto with read_only ]
    | match goal with
      | |- read_only (match ?x with _ => _ end) => destruct x
      | |- read_only (if ?c then _ else _) => destruct c
      end ].

Lemma HasChanges_read_only : read_only HasChanges.
Proof. unfold HasChanges. repeat read_only_step. Qed.

Lemma FromHeatPump_read_only : read_only FromHeatPump.
Proof. unfold FromHeatPump. repeat read_only_step. Qed.

Lemma ToHeatPump_read_only tc val : read_only (ToHeatPump tc val).
Proof. unfold ToHeatPump. repeat read_only_step. Qed.

Lemma iter_read_only {A} (m : method A) (n : nat) (b : Base) :
  read_only m -> Nat.iter n (after m) b = b.
Proof.
  intros Hm. induction n as [| n IH]; simpl.
  - reflexivity.
  - rewrite IH. apply Hm.
Qed.

(** ** The setter and change detection *)

Lemma SetRaw_after val b :
  after (SetRaw val) b = set_rawValue val (set_prevRawValue (rawValue b) b).
Proof. reflexivity. Qed.

Lemma SetRaw_rawValue val b : rawValue (after (SetRaw val) b) = val.
Proof. reflexivity. Qed.

Lemma SetRaw_prevRawValue val b : prevRawValue (after (SetRaw val) b) = rawValue b.
Proof. reflexivity. Qed.

Lemma SetRaw_returns val b : result_of (SetRaw val) b = Done tt.
Proof. reflexivity. Qed.

Lemma HasChanges_result b :
  result_of HasChanges b = Done (negb (prevRawValue b =? rawValue b)).
Proof. reflexivity. Qed.

Lemma constructed_fresh tc b :
  constructed tc b -> rawValue b = 0 /\ prevRawValue b = 0.
Proof. destruct 1; split; reflexivity. Qed.

(** C10. Decoding never changes the descriptor: after any number of
    [FromHeatPump] calls (returning or panicking) the descriptor is the one
    it was, so its raw value, its previous raw value and the answer of
    [HasChanges] are those from before the calls. *)
Theorem FromHeatPump_frame (b : Base) (n : nat) :
  let b' := Nat.iter n (after FromHeatPump) b in
  b' = b /\
  rawValue b' = rawValue b /\
  prevRawValue b' = prevRawValue b /\
  result_of HasChanges b' = result_of HasChanges b.
Proof.
  intros b'. assert (Hb : b' = b).
  { apply iter_read_only, FromHeatPump_read_only. }
  rewrite Hb. auto.
Qed.

(** C4 (as amended). A freshly constructed descriptor reports no change.
    After one [SetRaw v] on it, it reports a change exactly when [v] is not
    zero (the previous raw value is still the initial zero). On any
    descriptor, after [SetRaw v] and then [SetRaw w] with [w] different from
    [v] it reports a change, and after a further [SetRaw w] it reports none. *)
Theorem change_detection (tc : textconv) (b : Base) (v w : Z) :
  constructed tc b ->
  result_of HasChanges b = Done false /\
  result_of HasChanges (after (SetRaw v) b) = Done (negb (v =? 0)) /\
  (v <> w ->
   result_of HasChanges (after (SetRaw w) (after (SetRaw v) b)) = Done true) /\
  result_of HasChanges
    (after (SetRaw w) (after (SetRaw w) (after (SetRaw v) b))) = Done false.
Proof.
  intros Hc. destruct (constructed_fresh tc b Hc) as [Hraw Hprev].
  rewrite !HasChanges_result.
  repeat rewrite ?SetRaw_prevRawValue, ?SetRaw_rawValue.
  rewrite Hraw, Hprev. split; [reflexivity |]. split; [| split].
  - rewrite (Z.eqb_sym 0 v). reflexivity.
  - intros Hne. apply Z.eqb_neq in Hne. rewrite Hne. reflexivity.
  - rewrite Z.eqb_refl. reflexivity.
Qed.

Lemma change_detection_witness :
  constructed refusing_textconv (NewCelsius "ID_WEB_Temperatur_TVL" false) /\
  result_of HasChanges
    (after (SetRaw 215) (NewCelsius "ID_WEB_Temperatur_TVL" false)) = Done true.
Proof.
  split; [constructor |].
  exact (proj1 (proj2 (change_detection refusing_textconv
                         (NewCelsius "ID_WEB_Temperatur_TVL" false) 215 220
                         (constructed_Celsius _ _ _)))).
Defined.

(** C4, the claim as written fails: one [SetRaw] with a non-zero value on a
    fresh descriptor already makes [HasChanges] answer [true]. *)
Lemma change_after_first_SetRaw :
  result_of HasChanges (after (SetRaw 215) (NewCelsius "ID_WEB_Temperatur_TVL" false))
  <> Done false.
Proof. discriminate. Qed.

(** ** Decoding through a code table *)

Lemma FromHeatPump_with_codes (b : Base) (cs : list string) :
  codes b = Some cs ->
  result_of FromHeatPump b =
    if U32.wrap (Z.of_nat (length cs)) <? rawValue b
    then Done (AString ("unknown code: " +:+ pretty (rawValue b)))
    else match index cs (rawValue b) with
         | Done s => Done (AString s)
         | Panic msg => Panic msg
         end.
Proof.
  intros Hcs. unfold result_of, FromHeatPump, bind, read, ret, lift. simpl.
  rewrite Hcs. destruct (U32.wrap (Z.of_nat (length cs)) <? rawValue b); simpl.
  - reflexivity.
  - destruct (index cs (rawValue b)); reflexivity.
Qed.

Lemma index_in_range {A} (s : list A) (i : Z) :
  0 <= i < Z.of_nat (length s) ->
  exists a, s !! Z.to_nat i = Some a /\ index s i = Done a.
Proof.
  intros [Hlo Hhi]. unfold index.
  destruct (s !! Z.to_nat i) as [a |] eqn:Hlook.
  - exists a. split; [reflexivity |].
    apply Z.leb_le in Hlo. rewrite Hlo. reflexivity.
  - apply lookup_ge_None in Hlook. lia.
Qed.

Lemma index_out_of_range {A} (s : list A) (i : Z) :
  Z.of_nat (length s) <= i -> index s i = Panic "index out of range".
Proof.
  intros Hge. unfold index.
  destruct (0 <=? i); [| reflexivity].
  rewrite (proj2 (lookup_ge_None s (Z.to_nat i))); [reflexivity | lia].
Qed.

Lemma wrap_small (z : Z) : U32.in_range z -> U32.wrap z = z.
Proof. intros H. apply Z.mod_small. exact H. Qed.

Lemma FromHeatPump_in_table (b : Base) (cs : list string) (i : nat) (s : string) :
  codes b = Some cs ->
  Z.of_nat (length cs) < U32.modulus ->
  rawValue b = Z.of_nat i ->
  cs !! i = Some s ->
  result_of FromHeatPump b = Done (AString s).
Proof.
  intros Hcs Hlen Hraw Hi.
  pose proof (lookup_lt_Some _ _ _ Hi) as Hilt.
  rewrite (FromHeatPump_with_codes b cs Hcs), Hraw.
  rewrite wrap_small by (unfold U32.in_range; lia).
  rewrite (proj2 (Z.ltb_ge _ _)) by lia.
  destruct (index_in_range cs (Z.of_nat i)) as [s' [Hs' Hidx]]; [lia |].
  rewrite Nat2Z.id in Hs'. rewrite Hidx. congruence.
Qed.

(** C1. What [FromHeatPump] does on a descriptor with a code table, for
    every raw value: below the table's length it returns the slot's string;
    above the length it returns the sentinel "unknown code: <raw>"; at a raw
    value EQUAL to the length the guard [raw > len(codes)] lets the access
    [codes[raw]] through and the call panics. Decoding is therefore not
    total, against the claim. *)
Theorem FromHeatPump_code_table (b : Base) (cs : list string) :
  codes b = Some cs ->
  Z.of_nat (length cs) < U32.modulus ->
  0 <= rawValue b ->
  (rawValue b < Z.of_nat (length cs) ->
     exists s, cs !! Z.to_nat (rawValue b) = Some s /\
               result_of FromHeatPump b = Done (AString s)) /\
  (rawValue b = Z.of_nat (length cs) ->
     result_of FromHeatPump b = Panic "index out of range") /\
  (Z.of_nat (length cs) < rawValue b ->
     result_of FromHeatPump b =
       Done (AString ("unknown code: " +:+ pretty (rawValue b)))).
Proof.
  intros Hcs Hlen Hraw.
  rewrite (FromHeatPump_with_codes b cs Hcs).
  rewrite wrap_small by (unfold U32.in_range; lia).
  split; [| split]; intros Hcmp.
  - destruct (index_in_range cs (rawValue b)) as [s [Hs Hidx]]; [lia |].
    exists s. split; [exact Hs |].
    rewrite (proj2 (Z.ltb_ge _ _)) by lia. rewrite Hidx. reflexivity.
  - rewrite (proj2 (Z.ltb_ge _ _)) by lia.
    rewrite index_out_of_range by lia. reflexivity.
  - rewrite (proj2 (Z.ltb_lt _ _)) by lia. reflexivity.
Qed.

Lemma FromHeatPump_code_table_witness :
  result_of FromHeatPump (after (SetRaw 2) (NewCoolingMode "ID_Einst_BA_Kuehl_akt" true))
  = Panic "index out of range".
Proof.
  refine (proj1 (proj2 (FromHeatPump_code_table
            (after (SetRaw 2) (NewCoolingMode "ID_Einst_BA_Kuehl_akt" true))
            ["Off"; "Automatic"] _ _ _)) _).
  - reflexivity.
  - reflexivity.
  - discriminate.
  - reflexivity.
Defined.

(** ** Encoding *)

Lemma find_code_spec (vals : string) (cs : list string) (k : Z) :
  match find_code vals cs k with
  | Some idx =>
      exists j : nat, idx = k + Z.of_nat j /\ cs !! j = Some vals /\
                      forall j' : nat, (j' < j)%nat -> cs !! j' <> Some vals
  | None => vals ∉ cs
  end.
Proof.
  revert k. induction cs as [| code rest IH]; intros k; simpl.
  - apply not_elem_of_nil.
  - case_bool_decide as Heq.
    + exists 0%nat. subst code. split; [lia |]. split; [reflexivity |].
      intros j' Hj'. lia.
    + specialize (IH (k + 1)). destruct (find_code vals rest (k + 1)) as [idx |].
      * destruct IH as [j [Hidx [Hj Hfirst]]].
        exists (S j). split; [lia |]. split; [exact Hj |].
        intros [| j'] Hj'; simpl.
        -- congruence.
        -- apply Hfirst. lia.
      * rewrite elem_of_cons. intros [Hhd | Htl]; [congruence | contradiction].
Qed.

Lemma ToHeatPump_not_writeable tc val b :
  writeable b = false ->
  result_of (ToHeatPump tc val) b =
    Done (0, Some (Errorf "ToHeatPump can't write non-writeable value: %v" [val])).
Proof.
  intros Hw. unfold result_of, ToHeatPump, bind, read, ret. simpl.
  rewrite Hw. reflexivity.
Qed.

Lemma ToHeatPump_with_codes tc val b cs :
  writeable b = true -> codes b = Some cs ->
  result_of (ToHeatPump tc val) b =
    match find_code (cast.ToString tc val) cs 0 with
    | Some idx => Done (U32.wrap idx, None)
    | None =>
        Done (0, Some (Errorf "ToHeatPump can't find value: %q in list of codes"
                              [AString (cast.ToString tc val)]))
    end.
Proof.
  intros Hw Hcs. unfold result_of, ToHeatPump, bind, read, ret. simpl.
  rewrite Hw; simpl. rewrite Hcs; simpl.
  destruct (find_code (cast.ToString tc val) cs 0); reflexivity.
Qed.

Lemma ToHeatPump_custom tc val b f :
  writeable b = true -> codes b = None -> customToHP b = Some f ->
  result_of (ToHeatPump tc val) b = f (AUint32 (rawValue b)).
Proof.
  intros Hw Hcs Hf. unfold result_of, ToHeatPump, bind, read, ret, lift. simpl.
  rewrite Hw; simpl. rewrite Hcs; simpl. rewrite Hf; simpl.
  destruct (f (AUint32 (rawValue b))); reflexivity.
Qed.

(** C2. The hours2 codec as the code runs it. Decoding maps the raw value
    to [1 + raw/2]. Encoding hands the custom encoder the descriptor's
    CURRENT RAW VALUE, not the requested value: whatever [v] is asked for,
    the result is [(raw - 1) * 2]. At raw 10 decoding gives 6, and encoding
    6 gives 18, not the 10 the claim states. *)
Theorem Hours2_codec (tc : textconv) (nm : string) (raw : Z) (v : any) :
  let b := after (SetRaw raw) (NewHours2 tc nm true) in
  result_of FromHeatPump b = Done (AUint32 (U32.wrap (1 + raw / 2))) /\
  result_of (ToHeatPump tc v) b = Done (U32.wrap ((raw - 1) * 2), None) /\
  (raw = 10 ->
   result_of FromHeatPump b = Done (AUint32 6) /\
   result_of (ToHeatPump tc (AInt 6)) b = Done (18, None)).
Proof.
  intros b. split; [reflexivity |]. split; [reflexivity |].
  intros ->. split; reflexivity.
Qed.

Lemma Hours2_codec_witness :
  result_of (ToHeatPump refusing_textconv (AInt 6))
            (after (SetRaw 10) (NewHours2 refusing_textconv "ID_Einst_Popt_Nachlauf_akt" true))
  = Done (18, None).
Proof.
  exact (proj2 (proj2 (proj2 (Hours2_codec refusing_textconv
                                 "ID_Einst_Popt_Nachlauf_akt" 10 (AInt 6)))
                      eq_refl)).
Defined.

(** The custom encoder of hours2, taken alone, does what the claim says. *)
Lemma Hours2_encoder_alone (tc : textconv) (nm : string) (w : bool) (v : Z) :
  U32.in_range v ->
  exists f, customToHP (NewHours2 tc nm w) = Some f /\
            f (AUint32 v) = Done (U32.wrap ((v - 1) * 2), None) /\
            f (AInt v) = Done (U32.wrap ((v - 1) * 2), None).
Proof.
  intros Hv. eexists. split; [reflexivity |]. split; [reflexivity |].
  unfold cast.ToUint32.
  rewrite (proj2 (Z.ltb_ge v 0)) by (destruct Hv; lia).
  rewrite (wrap_small v Hv). reflexivity.
Qed.

(** C3 (as amended). Encoding on a non-writeable descriptor fails for every
    input, with the error "ToHeatPump can't write non-writeable value"; a
    code string that is not in a writeable descriptor's table fails with the
    error "ToHeatPump can't find value ... in list of codes". Neither error
    is, or wraps, the sentinel [ErrWritingNotAllowed]. The descriptor is
    left unchanged. *)
Theorem ToHeatPump_refusals (tc : textconv) (val : any) (b : Base) :
  (writeable b = false ->
   exists e,
     ToHeatPump tc val b = (Done (0, Some e), b) /\
     e = Errorf "ToHeatPump can't write non-writeable value: %v" [val] /\
     is_ErrWritingNotAllowed e = false) /\
  (forall cs, writeable b = true -> codes b = Some cs ->
   cast.ToString tc val ∉ cs ->
   exists e,
     ToHeatPump tc val b = (Done (0, Some e), b) /\
     e = Errorf "ToHeatPump can't find value: %q in list of codes"
                [AString (cast.ToString tc val)] /\
     is_ErrWritingNotAllowed e = false).
Proof.
  split.
  - intros Hw. eexists. split; [| split; reflexivity].
    rewrite (surjective_pairing (ToHeatPump tc val b)). f_equal.
    + apply ToHeatPump_not_writeable, Hw.
    + apply ToHeatPump_read_only.
  - intros cs Hw Hcs Hnotin. eexists. split; [| split; reflexivity].
    rewrite (surjective_pairing (ToHeatPump tc val b)). f_equal.
    + fold (result_of (ToHeatPump tc val) b).
      rewrite (ToHeatPump_with_codes tc val b cs Hw Hcs).
      pose proof (find_code_spec (cast.ToString tc val) cs 0) as Hfind.
      destruct (find_code (cast.ToString tc val) cs 0) as [idx |].
      * destruct Hfind as [j [_ [Hj _]]].
        exfalso. apply Hnotin. eapply list_elem_of_lookup_2, Hj.
      * reflexivity.
    + apply ToHeatPump_read_only.
Qed.

Lemma ToHeatPump_refusals_witness :
  (exists e,
     ToHeatPump refusing_textconv (AInt 1) (NewUnknown "ID_Transfert_LuxNet")
       = (Done (0, Some e), NewUnknown "ID_Transfert_LuxNet") /\
     is_ErrWritingNotAllowed e = false) /\
  (exists e,
     ToHeatPump refusing_textconv (AString "definitely-not-a-code")
                (NewHeatingMode "ID_Ba_Hz_akt" true)
       = (Done (0, Some e), NewHeatingMode "ID_Ba_Hz_akt" true) /\
     is_ErrWritingNotAllowed e = false).
Proof.
  split.
  - destruct (proj1 (ToHeatPump_refusals refusing_textconv (AInt 1)
                       (NewUnknown "ID_Transfert_LuxNet")) eq_refl)
      as [e [Hrun [_ Hsent]]].
    exists e. split; assumption.
  - destruct (proj2 (ToHeatPump_refusals refusing_textconv
                       (AString "definitely-not-a-code")
                       (NewHeatingMode "ID_Ba_Hz_akt" true))
                    ["Automatic"; "Second heatsource"; "Party"; "Holidays"; "Off"]
                    eq_refl eq_refl)
      as [e [Hrun [_ Hsent]]].
    + intros Hin. repeat (apply elem_of_cons in Hin as [Hin | Hin]; [discriminate |]).
      apply elem_of_nil in Hin. exact Hin.
    + exists e. split; assumption.
Defined.

(** C3, the claim as written fails: the error of the writeable gate is not
    the sentinel. *)
Lemma writeable_gate_error_is_not_the_sentinel :
  exists e,
    result_of (ToHeatPump refusing_textconv (AInt 1)) (NewUnknown "ID_Transfert_LuxNet")
      = Done (0, Some e) /\
    is_ErrWritingNotAllowed e = false.
Proof. eexists. split; reflexivity. Qed.

Lemma ToHeatPump_by_shape (tc : textconv) (v : any) (b : Base) :
  writeable b = true -> codes b = None -> customToHP b = None ->
  result_of (ToHeatPump tc v) b =
    match returnType b with
    | reflect.Uint32 =>
        if negb (F32.eqb (factor b) F32.zero)
        then Done (uint32_of_float (F32.div (cast.ToFloat32 tc v) (factor b)), None)
        else Done (rawValue b, None)
    | reflect.Float32 =>
        if negb (F32.eqb (factor b) F32.zero)
        then Done (uint32_of_float (F32.div (cast.ToFloat32 tc v) (factor b)), None)
        else Done (cast.ToUint32 tc v, None)
    | _ => Done (rawValue b, None)
    end.
Proof.
  intros Hw Hcs Hcustom.
  unfold result_of, ToHeatPump, bind, read, ret. simpl.
  rewrite Hw; simpl. rewrite Hcs; simpl. rewrite Hcustom; simpl.
  destruct (returnType b); try reflexivity;
    destruct (F32.eqb (factor b) F32.zero); reflexivity.
Qed.

(** C5. Encoding on a writeable descriptor without code table and without
    custom encoder, for every return shape and every requested value [v].
    The [Float32] shape does what the claim says: [uint32(float32(v) /
    factor)] with a non-zero factor, [uint32(v)] with a zero factor. The
    [Uint32] shape with a non-zero factor does too, but with a zero factor it
    returns the descriptor's CURRENT RAW VALUE. Every other shape, among them
    [Int64], the shape of the writeable integer descriptors [NewHours] and
    [NewMinutes], takes the [default] branch and returns the CURRENT RAW
    VALUE whatever the factor: there the result is no function of [v],
    against the claim. *)
Theorem ToHeatPump_scalar (tc : textconv) (v : any) (b : Base) :
  writeable b = true -> codes b = None -> customToHP b = None ->
  (returnType b = reflect.Float32 ->
   result_of (ToHeatPump tc v) b =
     if F32.eqb (factor b) F32.zero
     then Done (cast.ToUint32 tc v, None)
     else Done (uint32_of_float (F32.div (cast.ToFloat32 tc v) (factor b)), None)) /\
  (returnType b = reflect.Uint32 ->
   result_of (ToHeatPump tc v) b =
     if F32.eqb (factor b) F32.zero
     then Done (rawValue b, None)
     else Done (uint32_of_float (F32.div (cast.ToFloat32 tc v) (factor b)), None)) /\
  (returnType b <> reflect.Float32 -> returnType b <> reflect.Uint32 ->
   result_of (ToHeatPump tc v) b = Done (rawValue b, None)).
Proof.
  intros Hw Hcs Hcustom.
  rewrite (ToHeatPump_by_shape tc v b Hw Hcs Hcustom).
  split; [| split].
  - intros ->. destruct (F32.eqb (factor b) F32.zero); reflexivity.
  - intros ->. destruct (F32.eqb (factor b) F32.zero); reflexivity.
  - intros Hf Hu. destruct (returnType b); try reflexivity; contradiction.
Qed.

Lemma ToHeatPump_scalar_witness :
  result_of (ToHeatPump refusing_textconv (AInt 5))
    (after (SetRaw 7) (NewMinutes "ID_Einst_Minuten" true))
  = Done (7, None) /\
  result_of (ToHeatPump refusing_textconv (AInt 5))
    (after (SetRaw 7) (NewHours "ID_Einst_Stunden" true))
  = Done (7, None).
Proof.
  split.
  - refine (proj2 (proj2 (ToHeatPump_scalar refusing_textconv (AInt 5)
              (after (SetRaw 7) (NewMinutes "ID_Einst_Minuten" true))
              eq_refl eq_refl eq_refl)) _ _); discriminate.
  - refine (proj2 (proj2 (ToHeatPump_scalar refusing_textconv (AInt 5)
              (after (SetRaw 7) (NewHours "ID_Einst_Stunden" true))
              eq_refl eq_refl eq_refl)) _ _); discriminate.
Defined.

(** On the writeable constructors of [Float32] shape the encoder follows the
    requested value: tenths are multiplied out. *)
Lemma Celsius_encode_follows_value (tc : textconv) (nm : string) (raw : Z) (v : any) :
  result_of (ToHeatPump tc v) (after (SetRaw raw) (NewCelsius nm true))
  = Done (uint32_of_float (F32.div (cast.ToFloat32 tc v) (F32.of_ratio 1 10)), None).
Proof. reflexivity. Qed.

(** ** Code tables: decoding and encoding against each other *)

Lemma table_string_round_trip (tc : textconv) (b : Base) (cs : list string)
    (i : nat) (s : string) :
  writeable b = true -> codes b = Some cs ->
  Z.of_nat (length cs) < U32.modulus ->
  cs !! i = Some s ->
  result_of FromHeatPump (after (SetRaw (Z.of_nat i)) b) = Done (AString s) /\
  exists j : nat,
    result_of (ToHeatPump tc (AString s)) b = Done (Z.of_nat j, None) /\
    cs !! j = Some s /\
    (forall k : nat, (k < j)%nat -> cs !! k <> Some s) /\
    (j <= i)%nat /\
    (j = i <-> forall k : nat, (k < i)%nat -> cs !! k <> Some s).
Proof.
  intros Hw Hcs Hlen Hi.
  pose proof (lookup_lt_Some _ _ _ Hi) as Hilt.
  split.
  - apply (FromHeatPump_in_table _ cs i s); [exact Hcs | exact Hlen | reflexivity | exact Hi].
  - rewrite (ToHeatPump_with_codes tc (AString s) b cs Hw Hcs). simpl.
    pose proof (find_code_spec s cs 0) as Hfind.
    destruct (find_code s cs 0) as [idx |].
    + destruct Hfind as [j [Hidx [Hj Hfirst]]]. simpl in Hidx. subst idx.
      pose proof (lookup_lt_Some _ _ _ Hj) as Hjlt.
      assert (Hji : (j <= i)%nat).
      { destruct (le_lt_dec j i) as [Hle | Hgt]; [exact Hle |].
        exfalso. exact (Hfirst i Hgt Hi). }
      exists j. rewrite wrap_small by (unfold U32.in_range; lia).
      split; [reflexivity |]. split; [exact Hj |]. split; [exact Hfirst |].
      split; [exact Hji |]. split.
      * intros ->. exact Hfirst.
      * intros Hnone. destruct (decide (j = i)) as [Heq | Hne]; [exact Heq |].
        exfalso. apply (Hnone j); [lia | exact Hj].
    + exfalso. apply Hfind. eapply list_elem_of_lookup_2, Hi.
Qed.

(** Outside the catalogue: on a descriptor whose table repeats a string, the
    encoder returns the first index holding it. With the table of
    [NewSecOperationMode] put on a writeable descriptor, "waiting" sits at
    index 7 (and at 6), and encoding it gives 6. No constructor returns such
    a descriptor: the constructors of tables with repeated strings take no
    writeable flag. *)
Lemma encode_repeated_code_gives_first_index :
  let b := literal reflect.String "SecOperationMode" "selection" "ID_WEB_SEC_BZ"
                   "" F32.zero true (codes (NewSecOperationMode "ID_WEB_SEC_BZ"))
                   None None in
  (codes b ≫= (.!! 7%nat)) = Some "waiting" /\
  result_of (ToHeatPump refusing_textconv (AString "waiting")) b = Done (6, None) /\
  result_of (ToHeatPump refusing_textconv (AString "waiting")) b <> Done (7, None).
Proof. split; [reflexivity |]. split; [reflexivity | discriminate]. Qed.

(** In the catalogue every table that can belong to a writeable descriptor is
    free of repetitions. *)
Lemma writeable_tables_NoDup (tc : textconv) (b : Base) (cs : list string) :
  constructed tc b -> writeable b = true -> codes b = Some cs -> NoDup cs.
Proof.
  intros Hc Hw Hcs.
  destruct Hc; simpl in Hw, Hcs; try discriminate Hcs; try discriminate Hw;
    injection Hcs as <-; refine (bool_decide_unpack _ _); vm_compute; exact I.
Qed.

Lemma catalogue_tables_short (tc : textconv) (b : Base) (cs : list string) :
  constructed tc b -> codes b = Some cs -> Z.of_nat (length cs) < U32.modulus.
Proof.
  intros Hc Hcs.
  destruct Hc; simpl in Hcs; try discriminate Hcs;
    injection Hcs as <-; vm_compute; reflexivity.
Qed.

Lemma catalogue_code_table_symmetry (tc : textconv) (b : Base) (cs : list string)
    (i : nat) (s : string) :
  constructed tc b -> writeable b = true -> codes b = Some cs ->
  cs !! i = Some s ->
  result_of FromHeatPump (after (SetRaw (Z.of_nat i)) b) = Done (AString s) /\
  result_of (ToHeatPump tc (AString s)) b = Done (Z.of_nat i, None).
Proof.
  intros Hc Hw Hcs Hi.
  pose proof (writeable_tables_NoDup tc b cs Hc Hw Hcs) as Hnd.
  pose proof (catalogue_tables_short tc b cs Hc Hcs) as Hlen.
  destruct (table_string_round_trip tc b cs i s Hw Hcs Hlen Hi)
    as [Hdec [j [Henc [Hj _]]]].
  split; [exact Hdec |].
  rewrite Henc. rewrite (NoDup_lookup cs j i s Hnd Hj Hi). reflexivity.
Qed.

(** C7. Code-table symmetry. Take any descriptor a constructor of the
    catalogue returns, at any raw and previous raw value. If it is writeable
    and has a code table, then for every index [i] of the table with string
    [s], decoding raw value [i] gives [s] and encoding [s] gives [i]. *)
Theorem code_table_symmetry (tc : textconv) (b0 : Base) (raw prev : Z)
    (cs : list string) (i : nat) (s : string) :
  constructed tc b0 ->
  let b := set_rawValue raw (set_prevRawValue prev b0) in
  writeable b = true -> codes b = Some cs ->
  cs !! i = Some s ->
  result_of FromHeatPump (after (SetRaw (Z.of_nat i)) b) = Done (AString s) /\
  result_of (ToHeatPump tc (AString s)) b = Done (Z.of_nat i, None).
Proof.
  intros Hc b Hw Hcs Hi.
  pose proof (writeable_tables_NoDup tc b0 cs Hc Hw Hcs) as Hnd.
  pose proof (catalogue_tables_short tc b0 cs Hc Hcs) as Hlen.
  destruct (table_string_round_trip tc b cs i s Hw Hcs Hlen Hi)
    as [Hdec [j [Henc [Hj _]]]].
  split; [exact Hdec |].
  rewrite Henc. rewrite (NoDup_lookup cs j i s Hnd Hj Hi). reflexivity.
Qed.

Lemma code_table_symmetry_witness :
  result_of FromHeatPump
    (after (SetRaw 2) (after (SetRaw 4) (NewMixedCircuitMode "ID_Einst_BA_MK1" true)))
  = Done (AString "Party") /\
  result_of (ToHeatPump refusing_textconv (AString "Party"))
    (after (SetRaw 4) (NewMixedCircuitMode "ID_Einst_BA_MK1" true))
  = Done (2, None).
Proof.
  exact (code_table_symmetry refusing_textconv
           (NewMixedCircuitMode "ID_Einst_BA_MK1" true) 4 0
           ["Automatic"; ""; "Party"; "Holidays"; "Off"] 2 "Party"
           (constructed_MixedCircuitMode _ _ _) eq_refl eq_refl eq_refl).
Defined.

(** ** The register map *)

Lemma call_SetRaw (l : positive) (b : Base) (raw : Z) (h : heap) :
  h !! l = Some b ->
  call (Some l) (SetRaw raw) h = (Done tt, <[l := after (SetRaw raw) b]> h).
Proof. intros Hl. unfold call. rewrite Hl. reflexivity. Qed.

Lemma at_key_Some (pm : DataTypeMap) (i : Z) (p : option positive) :
  pm !! i = Some p -> at_key pm i = p.
Proof. intros H. unfold at_key. rewrite H. reflexivity. Qed.

Lemma slots_valid_insert pm h k n l b b' :
  h !! l = Some b -> slots_valid pm h k n -> slots_valid pm (<[l := b']> h) k n.
Proof.
  intros Hl Hv i Hi. destruct (Hv i Hi) as [l' [c [Hpm Hh]]].
  destruct (decide (l = l')) as [<- | Hne].
  - exists l, b'. split; [exact Hpm |]. apply lookup_insert_eq.
  - exists l', c. split; [exact Hpm |]. rewrite lookup_insert_ne by exact Hne. exact Hh.
Qed.

Lemma setter_calls_cons pm (k : nat) (raw : Z) (rest : list Z) (h : heap) :
  setter_calls pm (calls_from k (raw :: rest)) h
  = setter_calls pm (calls_from (S k) rest)
      (call (at_key pm (Z.of_nat k)) (SetRaw raw) h).2.
Proof. reflexivity. Qed.

Lemma SetRawValues_from_calls pm (data : list Z) :
  forall (k : nat) (h : heap),
    slots_valid pm h k (length data) ->
    SetRawValues_from pm (Z.of_nat k) data h
    = (Done tt, setter_calls pm (calls_from k data) h).
Proof.
  induction data as [| raw rest IH]; intros k h Hv.
  - reflexivity.
  - destruct (Hv k) as [l [b [Hpm Hh]]]; [simpl; lia |].
    rewrite setter_calls_cons. cbn [SetRawValues_from].
    rewrite (at_key_Some _ _ _ Hpm), (call_SetRaw _ _ _ _ Hh).
    replace (Z.of_nat k + 1) with (Z.of_nat (S k)) by lia.
    rewrite IH.
    + reflexivity.
    + apply (slots_valid_insert _ _ _ _ _ b); [exact Hh |].
      intros i Hi. apply Hv. simpl. lia.
Qed.

Lemma setter_calls_other pm (data : list Z) :
  forall (k : nat) (h : heap) (l : positive),
    (forall i : nat, (k <= i < k + length data)%nat -> pm !! Z.of_nat i <> Some (Some l)) ->
    setter_calls pm (calls_from k data) h !! l = h !! l.
Proof.
  induction data as [| raw rest IH]; intros k h l Hfree.
  - reflexivity.
  - rewrite setter_calls_cons.
    rewrite IH by (intros i Hi; apply Hfree; simpl; lia).
    unfold call. destruct (at_key pm (Z.of_nat k)) as [l' |] eqn:Hk; [| reflexivity].
    destruct (h !! l') as [b |] eqn:Hl'; [| reflexivity]. simpl.
    apply lookup_insert_ne. intros ->.
    apply (Hfree k); [simpl; lia |].
    unfold at_key in Hk. destruct (pm !! Z.of_nat k) as [p |]; simpl in Hk; congruence.
Qed.

Lemma setter_calls_slot pm (data : list Z) :
  no_alias pm ->
  forall (k : nat) (h : heap) (i : nat) (l : positive) (b : Base) (raw : Z),
    (k <= i)%nat ->
    pm !! Z.of_nat i = Some (Some l) -> h !! l = Some b ->
    data !! (i - k)%nat = Some raw ->
    setter_calls pm (calls_from k data) h !! l = Some (after (SetRaw raw) b).
Proof.
  intros Hna. induction data as [| raw0 rest IH]; intros k h i l b raw Hki Hpm Hh Hdata.
  - discriminate.
  - rewrite setter_calls_cons.
    destruct (decide (i = k)) as [-> | Hne].
    + rewrite Nat.sub_diag in Hdata. simpl in Hdata. injection Hdata as ->.
      rewrite (at_key_Some _ _ _ Hpm), (call_SetRaw _ _ _ _ Hh). simpl.
      rewrite setter_calls_other.
      * apply lookup_insert_eq.
      * intros j Hj Hpmj. assert (Z.of_nat j = Z.of_nat k) by exact (Hna _ _ _ Hpmj Hpm). lia.
    + replace (i - k)%nat with (S (i - S k)) in Hdata by lia. simpl in Hdata.
      apply (IH (S k) _ i l b raw); [lia | exact Hpm | | exact Hdata].
      unfold call. destruct (at_key pm (Z.of_nat k)) as [l' |] eqn:Hk; [| exact Hh].
      destruct (h !! l') as [b' |] eqn:Hl'; [| exact Hh]. simpl.
      rewrite lookup_insert_ne; [exact Hh |]. intros ->.
      unfold at_key in Hk. destruct (pm !! Z.of_nat k) as [p |] eqn:Hpk; simpl in Hk; [| discriminate].
      subst p. assert (Z.of_nat k = Z.of_nat i) by exact (Hna _ _ _ Hpk Hpm). lia.
Qed.

Lemma dense_slots_valid pm h n : dense pm h -> n = size pm -> slots_valid pm h 0 n.
Proof. intros Hd -> i Hi. apply Hd. lia. Qed.

Lemma SetRawValues_mismatch (pm : DataTypeMap) (data : list Z) (h : heap) :
  length data <> size pm ->
  SetRawValues pm data h
  = (Done (Some (Errorf
       "DataTypeMap.SetRawValues length of data:%d not equal to length of DataTypeMap:%d"
       [AInt (Z.of_nat (length data)); AInt (Z.of_nat (size pm))])), h).
Proof.
  intros Hne. unfold SetRawValues.
  rewrite (proj2 (Z.eqb_neq _ _)) by lia. reflexivity.
Qed.

Lemma SetRawValues_dense (pm : DataTypeMap) (data : list Z) (h : heap) :
  length data = size pm -> dense pm h ->
  SetRawValues pm data h = (Done None, setter_calls pm (calls_from 0 data) h).
Proof.
  intros Hlen Hd. unfold SetRawValues.
  rewrite (proj2 (Z.eqb_eq _ _)) by lia. cbn [negb].
  pose proof (SetRawValues_from_calls pm data 0 h
                (dense_slots_valid pm h _ Hd Hlen)) as Hrun.
  change (Z.of_nat 0) with 0 in Hrun. rewrite Hrun. reflexivity.
Qed.

Lemma raw_values_after_bulk (pm : DataTypeMap) (data : list Z) (h : heap) :
  length data = size pm -> dense pm h -> no_alias pm ->
  raw_values pm (setter_calls pm (calls_from 0 data) h) (length data) = Some <$> data.
Proof.
  intros Hlen Hd Hna. apply list_eq. intros i.
  unfold raw_values, slots. rewrite !list_lookup_fmap.
  destruct (data !! i) as [raw |] eqn:Hdata.
  - pose proof (lookup_lt_Some _ _ _ Hdata) as Hi.
    rewrite lookup_seq_lt by exact Hi. simpl.
    destruct (Hd (Z.of_nat i)) as [l [b [Hpm Hh]]]; [lia |].
    unfold descriptor. rewrite (at_key_Some _ _ _ Hpm). simpl.
    rewrite (setter_calls_slot pm data Hna 0%nat h i l b raw);
      [reflexivity | lia | exact Hpm | exact Hh | rewrite Nat.sub_0_r; exact Hdata].
  - apply lookup_ge_None in Hdata.
    rewrite lookup_seq_ge by exact Hdata. reflexivity.
Qed.


Lemma bank3_lookup (i : Z) (p : option positive) :
  bank3 !! i = Some p ->
  (i = 0 /\ p = Some 1%positive) \/ (i = 1 /\ p = Some 2%positive)
  \/ (i = 2 /\ p = Some 3%positive).
Proof.
  unfold bank3. intros H.
  apply lookup_insert_Some in H as [[<- <-] | [_ H]]; [auto |].
  apply lookup_insert_Some in H as [[<- <-] | [_ H]]; [auto |].
  apply lookup_insert_Some in H as [[<- <-] | [_ H]]; [auto |].
  rewrite lookup_empty in H. discriminate.
Qed.

Lemma bank3_size : size bank3 = 3%nat.
Proof. reflexivity. Qed.

Lemma bank3_dense : dense bank3 bank3_heap.
Proof.
  intros i Hi. rewrite bank3_size in Hi.
  assert (Hcases : i = 0 \/ i = 1 \/ i = 2) by lia.
  destruct Hcases as [-> | [-> | ->]]; eexists _, _; split; reflexivity.
Qed.

Lemma bank3_no_alias : no_alias bank3.
Proof.
  intros i j l Hi Hj.
  apply bank3_lookup in Hi. apply bank3_lookup in Hj.
  destruct Hi as [[-> Hi] | [[-> Hi] | [-> Hi]]];
    destruct Hj as [[-> Hj] | [[-> Hj] | [-> Hj]]]; congruence.
Qed.


(** Without density the bulk setter can panic half-way: slot 0 is set, then
    the missing slot 1 gives a nil receiver. *)
Lemma SetRawValues_sparse_panics :
  (SetRawValues sparse_bank [10; 20] bank3_heap).1 = Panic "nil pointer dereference" /\
  rawValue <$> ((SetRawValues sparse_bank [10; 20] bank3_heap).2 !! 1%positive) = Some 10.
Proof. split; reflexivity. Qed.

(** ** The wire codec and the read framing *)

Lemma byte_to_of_Z z : byte_to_Z (byte_of_Z z) = z mod 256.
Proof.
  unfold byte_to_Z, byte_of_Z.
  assert (Hr : 0 <= z mod 256 < 256) by (apply Z.mod_pos_bound; lia).
  destruct (Byte.of_N (Z.to_N (z mod 256))) as [b |] eqn:Hb; simpl.
  - apply Byte.to_of_N in Hb. rewrite Hb. lia.
  - apply Byte.of_N_None_iff in Hb. lia.
Qed.

Lemma BigEndian_octets u :
  0 <= u < 2 ^ 32 ->
  Z.lor (Z.lor (Z.lor (u mod 256) (Z.shiftl ((u / 2 ^ 8) mod 256) 8))
               (Z.shiftl ((u / 2 ^ 16) mod 256) 16))
        (Z.shiftl ((u / 2 ^ 24) mod 256) 24) = u.
Proof.
  intros Hu. apply Z.bits_inj'. intros n Hn.
  rewrite !Z.lor_spec.
  rewrite !Z.shiftl_spec by lia.
  change 256 with (2 ^ 8).
  destruct (Z.ltb_spec n 8).
  - rewrite Z.mod_pow2_bits_low by lia.
    rewrite !(Z.testbit_neg_r _ (n - _)) by lia. 
    rewrite !orb_false_r. reflexivity.
  - rewrite Z.mod_pow2_bits_high by lia. simpl.
    destruct (Z.ltb_spec n 16).
    + rewrite Z.mod_pow2_bits_low by lia.
      rewrite Z.div_pow2_bits by lia.
      rewrite !(Z.testbit_neg_r _ (n - _)) by lia.
      rewrite !orb_false_r. f_equal. lia.
    + rewrite (Z.mod_pow2_bits_high _ 8 (n - 8)) by lia. simpl.
      destruct (Z.ltb_spec n 24).
      * rewrite Z.mod_pow2_bits_low by lia.
        rewrite Z.div_pow2_bits by lia.
        rewrite !(Z.testbit_neg_r _ (n - _)) by lia.
        rewrite !orb_false_r. f_equal. lia.
      * rewrite (Z.mod_pow2_bits_high _ 8 (n - 16)) by lia. simpl.
        destruct (Z.ltb_spec n 32).
        -- rewrite Z.mod_pow2_bits_low by lia.
           rewrite Z.div_pow2_bits by lia. f_equal. lia.
        -- rewrite Z.mod_pow2_bits_high by lia.
           symmetry. apply Z.bits_above_log2; [lia |].
           destruct (Z.eq_dec u 0) as [-> | Hne]; [simpl; lia |].
           assert (Z.log2 u < 32) by (apply Z.log2_lt_pow2; lia). lia.
Qed.

Lemma BigEndian_int32_bytes (w : Z) :
  BigEndian_Uint32 (int32_bytes w) = Done (U32.wrap w).
Proof.
  unfold int32_bytes, octets, BigEndian_Uint32. cbn [fmap list_fmap].
  rewrite !byte_to_of_Z. rewrite !Zmod_mod.
  assert (Hr : 0 <= U32.wrap w < 2 ^ 32) by (apply Z.mod_pos_bound; reflexivity).
  f_equal. apply (BigEndian_octets (U32.wrap w) Hr).
Qed.

Lemma length_int32_bytes (w : Z) : length (int32_bytes w) = 4%nat.
Proof. reflexivity. Qed.

Lemma conn_Read_whole (n : nat) (cn : Conn) (bs : list byte) (err : option error)
    (rest : list arrival) :
  inbound cn = Arrive bs err :: rest -> (length bs <= n)%nat ->
  conn_Read n cn = ((bs, err), set_inbound rest cn).
Proof.
  intros Hin Hlen. unfold conn_Read. rewrite Hin.
  rewrite (proj2 (Nat.leb_le _ _) Hlen). reflexivity.
Qed.

Lemma conn_Read_EOF (n : nat) (cn : Conn) :
  inbound cn = [] -> conn_Read n cn = (([], Some EOF), cn).
Proof. intros Hin. unfold conn_Read. rewrite Hin. reflexivity. Qed.

Lemma readUint32_whole (c : Client) (cn : Conn) (w : Z) (rest : list arrival) :
  conn c = Some cn ->
  inbound cn = Arrive (int32_bytes w) None :: rest ->
  readUint32 c = (Done (U32.wrap w, None), set_conn (set_inbound rest cn) c).
Proof.
  intros Hc Hin. unfold readUint32. rewrite Hc.
  rewrite (conn_Read_whole _ cn (int32_bytes w) None rest Hin)
    by (rewrite length_int32_bytes; reflexivity).
  cbn [fst snd]. rewrite BigEndian_int32_bytes. reflexivity.
Qed.

Lemma readUint32_next (c : Client) (cn : Conn) (w : Z) (rest : list arrival) :
  inbound cn = Arrive (int32_bytes w) None :: rest ->
  readUint32 (set_conn cn c) = (Done (U32.wrap w, None), set_conn (set_inbound rest cn) c).
Proof. intros Hin. apply (readUint32_whole (set_conn cn c) cn w rest eq_refl Hin). Qed.

Lemma readUint32_EOF (c : Client) (cn : Conn) :
  conn c = Some cn -> inbound cn = [] ->
  readUint32 c = (Done (0, Some EOF), set_conn cn c).
Proof.
  intros Hc Hin. unfold readUint32. rewrite Hc.
  rewrite (conn_Read_EOF _ cn Hin). reflexivity.
Qed.

Lemma read_entries_whole (cmd : Z) (data : list Z) :
  cmd <> VisibilitiesRead ->
  forall (i : Z) (acc : list Z) (c : Client) (cn : Conn) (rest : list arrival),
    conn c = Some cn ->
    inbound cn = whole_words data ++ rest ->
    read_entries cmd (length data) i acc c
    = (Done (inl (acc ++ (U32.wrap <$> data))),
       match data with [] => c | _ => set_conn (set_inbound rest cn) c end).
Proof.
  intros Hcmd. apply Z.eqb_neq in Hcmd.
  induction data as [| w ws IH]; intros i acc c cn rest Hc Hin.
  - simpl. rewrite app_nil_r. reflexivity.
  - cbn [length read_entries]. rewrite Hcmd.
    rewrite (readUint32_whole c cn w (whole_words ws ++ rest) Hc Hin).
    rewrite (IH (i + 1) (acc ++ [U32.wrap w]) _ (set_inbound (whole_words ws ++ rest) cn) rest)
      by reflexivity.
    rewrite <- app_assoc. simpl. f_equal. destruct ws; reflexivity.
Qed.

Lemma read_entries_EOF (cmd : Z) (data : list Z) (more : nat) :
  cmd <> VisibilitiesRead ->
  forall (i : Z) (acc : list Z) (c : Client) (cn : Conn),
    conn c = Some cn ->
    inbound cn = whole_words data ->
    exists c',
      read_entries cmd (length data + S more) i acc c
      = (Done (inr (Wrapf "readFromHeatPump.readUint32.paramID at index %d failed: %w"
                          [AUint32 (i + Z.of_nat (length data))] EOF)), c').
Proof.
  intros Hcmd. apply Z.eqb_neq in Hcmd.
  induction data as [| w ws IH]; intros i acc c cn Hc Hin.
  - cbn [length Nat.add read_entries]. rewrite Hcmd.
    rewrite (readUint32_EOF c cn Hc Hin). rewrite Z.add_0_r. eexists. reflexivity.
  - cbn [length Nat.add read_entries]. rewrite Hcmd.
    rewrite (readUint32_whole c cn w (whole_words ws) Hc Hin).
    destruct (IH (i + 1) (acc ++ [U32.wrap w]) (set_conn (set_inbound (whole_words ws) cn) c)
                 (set_inbound (whole_words ws) cn) eq_refl eq_refl) as [c' Hrun].
    exists c'. rewrite Hrun.
    replace (i + Z.of_nat (S (length ws))) with (i + 1 + Z.of_nat (length ws)) by lia.
    reflexivity.
Qed.

Lemma netWrite_ok (data : list Z) (c : Client) (cn : Conn) :
  conn c = Some cn -> write_error cn = None ->
  netWrite data c
  = (Done (Z.of_nat (length (data ≫= int32_bytes)), None), set_conn (sent data cn) c).
Proof.
  intros Hc Hw. unfold netWrite, conn_Write. rewrite Hc, Hw. reflexivity.
Qed.

Lemma readFromHeatPump_reply pm (cmd0 arg st : Z) (data : list Z) (more : list arrival)
    (cn : Conn) (h : heap) :
  write_error cn = None ->
  cmd0 <> VisibilitiesRead ->
  Z.of_nat (length data) < U32.modulus ->
  inbound cn = reply cmd0 st (Z.of_nat (length data)) data ++ more ->
  exists c',
    readFromHeatPump pm [cmd0; arg] (connected cn, h)
    = ((SetRawValues pm (U32.wrap <$> data) h).1,
       (c', (SetRawValues pm (U32.wrap <$> data) h).2)).
Proof.
  intros Hw Hcmd Hlen Hin. unfold readFromHeatPump.
  rewrite (netWrite_ok _ (connected cn) cn eq_refl Hw).
  unfold reply in Hin. cbn [whole_words fmap list_fmap app] in Hin.
  rewrite (readUint32_next (connected cn) (sent [cmd0; arg] cn) cmd0 _ Hin).
  set (c1 := set_conn (set_inbound _ _) _).
  assert (Hstatus :
            (if cmd0 =? CalculationsRead
             then match readUint32 c1 with
                  | (Panic msg, c) => (Panic msg, c)
                  | (Done (_, err), c) => (Done err, c)
                  end
             else (Done None, c1))
            = (Done None,
               set_conn (set_inbound (whole_words (Z.of_nat (length data) :: data) ++ more)
                                     (sent [cmd0; arg] cn))
                        (connected cn))).
  { subst c1. destruct (cmd0 =? CalculationsRead).
    - erewrite readUint32_next by reflexivity. reflexivity.
    - reflexivity. }
  rewrite Hstatus. clear Hstatus c1.
  rewrite Z.eqb_refl. cbn [negb].
  erewrite readUint32_next by reflexivity.
  rewrite (wrap_small (Z.of_nat (length data))) by (unfold U32.in_range; lia).
  rewrite Nat2Z.id.
  erewrite (read_entries_whole cmd0 data Hcmd 0 []); [| reflexivity | reflexivity].
  cbn [app]. eexists. reflexivity.
Qed.

Lemma readFromHeatPump_truncated pm (cmd0 arg st len : Z) (data : list Z) (missing : nat)
    (cn : Conn) (h : heap) :
  write_error cn = None ->
  cmd0 <> VisibilitiesRead ->
  Z.to_nat (U32.wrap len) = (length data + S missing)%nat ->
  inbound cn = reply cmd0 st len data ->
  exists c',
    readFromHeatPump pm [cmd0; arg] (connected cn, h)
    = (Done (Some (Wrapf "readFromHeatPump.readUint32.paramID at index %d failed: %w"
                         [AUint32 (Z.of_nat (length data))] EOF)), (c', h)).
Proof.
  intros Hw Hcmd Hlen Hin. unfold readFromHeatPump.
  rewrite (netWrite_ok _ (connected cn) cn eq_refl Hw).
  unfold reply in Hin. cbn [whole_words fmap list_fmap app] in Hin.
  rewrite (readUint32_next (connected cn) (sent [cmd0; arg] cn) cmd0 _ Hin).
  set (c1 := set_conn (set_inbound _ _) _).
  assert (Hstatus :
            (if cmd0 =? CalculationsRead
             then match readUint32 c1 with
                  | (Panic msg, c) => (Panic msg, c)
                  | (Done (_, err), c) => (Done err, c)
                  end
             else (Done None, c1))
            = (Done None,
               set_conn (set_inbound (whole_words (len :: data)) (sent [cmd0; arg] cn))
                        (connected cn))).
  { subst c1. destruct (cmd0 =? CalculationsRead).
    - erewrite readUint32_next by reflexivity. reflexivity.
    - reflexivity. }
  rewrite Hstatus. clear Hstatus c1.
  rewrite Z.eqb_refl. cbn [negb].
  erewrite readUint32_next by reflexivity.
  rewrite Hlen.
  edestruct (read_entries_EOF cmd0 data missing Hcmd 0 []) as [c' Hrun];
    [| | rewrite Hrun]; [reflexivity | reflexivity |].
  exists c'. reflexivity.
Qed.

Lemma readFromHeatPump_wrong_echo pm (cmd0 arg w : Z) (rest : list arrival)
    (cn : Conn) (h : heap) :
  write_error cn = None ->
  inbound cn = Arrive (int32_bytes w) None :: rest ->
  U32.wrap w <> U32.wrap cmd0 ->
  exists r c',
    readFromHeatPump pm [cmd0; arg] (connected cn, h) = (r, (c', h)) /\
    r <> Done None /\
    (cmd0 <> CalculationsRead ->
     r = Done (Some (Errorf "readFromHeatPump. received invalid command: %d want: %d"
                            [AUint32 (U32.wrap w); AInt cmd0]))).
Proof.
  intros Hw Hin Hne. unfold readFromHeatPump.
  rewrite (netWrite_ok _ (connected cn) cn eq_refl Hw).
  rewrite (readUint32_next (connected cn) (sent [cmd0; arg] cn) w rest Hin).
  apply Z.eqb_neq in Hne.
  destruct (cmd0 =? CalculationsRead) eqn:Hcalc.
  - destruct (readUint32 _) as [[[v [e |]] | msg] c2].
    + eexists _, _. split; [reflexivity |]. split; [discriminate |].
      intros Hc. apply Z.eqb_eq in Hcalc. contradiction.
    + rewrite Hne. eexists _, _. split; [reflexivity |]. split; [discriminate |].
      intros Hc. apply Z.eqb_eq in Hcalc. contradiction.
    + eexists _, _. split; [reflexivity |]. split; [discriminate |].
      intros Hc. apply Z.eqb_eq in Hcalc. contradiction.
  - rewrite Hne. eexists _, _. split; [reflexivity |]. split; [discriminate |].
    intros _. reflexivity.
Qed.

Lemma read_bank3_succeeds pm (cmd0 st : Z) (cn : Conn) (h : heap) :
  write_error cn = None -> size pm = 3%nat -> dense pm h -> no_alias pm ->
  cmd0 <> VisibilitiesRead ->
  inbound cn = reply cmd0 st 3 [10; 20; 30] ->
  exists c' h',
    readFromHeatPump pm [cmd0; 0] (connected cn, h) = (Done None, (c', h')) /\
    raw_values pm h' 3 = [Some 10; Some 20; Some 30].
Proof.
  intros Hw Hsize Hd Hna Hcmd Hin.
  destruct (readFromHeatPump_reply pm cmd0 0 st [10; 20; 30] [] cn h Hw Hcmd)
    as [c' Hrun]; [reflexivity | rewrite app_nil_r; exact Hin |].
  change (U32.wrap <$> [10; 20; 30]) with [10; 20; 30] in Hrun.
  rewrite (SetRawValues_dense pm [10; 20; 30] h) in Hrun by (simpl; auto).
  eexists _, _. split; [exact Hrun |].
  apply (raw_values_after_bulk pm [10; 20; 30] h); simpl; auto.
Qed.

(** C6 (as amended). Reading calculations into a dense three-slot map
    whose slots do not share descriptors, over a transport that accepts the
    request. With the reply: echo 3004, any status word, length 3, entries
    10, 20, 30, the call succeeds and the slots' raw values are 10, 20, 30.
    The status word is read (and dropped) for [CalculationsRead] only: the
    reply to [ParametersRead] carries none. If the echoed word differs from
    the command sent, the call does not succeed and no descriptor changes.
    With length word 4 the call fails and no descriptor changes: with the
    length mismatch of [SetRawValues] when four entries follow, and with the
    transport's read error at entry index 3 when only the three entries
    10, 20, 30 follow. *)
Theorem calculations_read_framing (pm : DataTypeMap) (h : heap) (cn : Conn) (st : Z) :
  write_error cn = None -> size pm = 3%nat -> dense pm h -> no_alias pm ->
  (inbound cn = whole_words [CalculationsRead; st; 3; 10; 20; 30] ->
   exists c' h',
     readCalculations pm (connected cn, h) = (Done None, (c', h')) /\
     raw_values pm h' 3 = [Some 10; Some 20; Some 30]) /\
  (inbound cn = whole_words [ParametersRead; 3; 10; 20; 30] ->
   exists c' h',
     readParameters pm (connected cn, h) = (Done None, (c', h')) /\
     raw_values pm h' 3 = [Some 10; Some 20; Some 30]) /\
  (forall (cmd0 arg w : Z) (rest : list arrival),
     inbound cn = Arrive (int32_bytes w) None :: rest ->
     U32.wrap w <> U32.wrap cmd0 ->
     exists r c',
       readFromHeatPump pm [cmd0; arg] (connected cn, h) = (r, (c', h)) /\
       r <> Done None) /\
  (forall x : Z,
     inbound cn = whole_words [CalculationsRead; st; 4; 10; 20; 30; x] ->
     exists c',
       readCalculations pm (connected cn, h)
       = (Done (Some (Errorf
            "DataTypeMap.SetRawValues length of data:%d not equal to length of DataTypeMap:%d"
            [AInt 4; AInt 3])), (c', h))) /\
  (inbound cn = whole_words [CalculationsRead; st; 4; 10; 20; 30] ->
   exists c',
     readCalculations pm (connected cn, h)
     = (Done (Some (Wrapf "readFromHeatPump.readUint32.paramID at index %d failed: %w"
                          [AUint32 3] EOF)), (c', h))).
Proof.
  intros Hw Hsize Hd Hna. split; [| split; [| split; [| split]]].
  - intros Hin.
    apply (read_bank3_succeeds pm CalculationsRead st cn h Hw Hsize Hd Hna);
      [discriminate | exact Hin].
  - intros Hin.
    apply (read_bank3_succeeds pm ParametersRead 0 cn h Hw Hsize Hd Hna);
      [discriminate | exact Hin].
  - intros cmd0 arg w rest Hin Hne.
    destruct (readFromHeatPump_wrong_echo pm cmd0 arg w rest cn h Hw Hin Hne)
      as [r [c' [Hrun [Hr _]]]].
    exists r, c'. split; assumption.
  - intros x Hin.
    destruct (readFromHeatPump_reply pm CalculationsRead 0 st [10; 20; 30; x] [] cn h Hw)
      as [c' Hrun]; [discriminate | reflexivity | rewrite app_nil_r; exact Hin |].
    rewrite SetRawValues_mismatch in Hrun by (rewrite Hsize; discriminate).
    rewrite Hsize in Hrun. exists c'. exact Hrun.
  - intros Hin.
    apply (readFromHeatPump_truncated pm CalculationsRead 0 st 4 [10; 20; 30] 0 cn h Hw);
      [discriminate | reflexivity | exact Hin].
Qed.

Lemma calculations_read_framing_witness :
  exists c' h',
    readCalculations bank3
      (connected (scripted (whole_words [CalculationsRead; 0; 3; 10; 20; 30])), bank3_heap)
    = (Done None, (c', h')) /\
    raw_values bank3 h' 3 = [Some 10; Some 20; Some 30].
Proof.
  exact (proj1 (calculations_read_framing bank3 bank3_heap
                  (scripted (whole_words [CalculationsRead; 0; 3; 10; 20; 30])) 0
                  eq_refl bank3_size bank3_dense bank3_no_alias) eq_refl).
Defined.

(** C6, the claim as written fails: the scenario's transport with the
    length word changed to 4 (entries 10, 20, 30 unchanged) makes the call
    fail while it reads the fourth entry; [SetRawValues] and its length check
    are never reached. The same holds when all bytes arrive in one piece. *)
Lemma length_word_4_with_three_entries :
  let cn := scripted (whole_words [CalculationsRead; 0; 4; 10; 20; 30]) in
  let stream := scripted [Arrive ([CalculationsRead; 0; 4; 10; 20; 30] ≫= int32_bytes) None] in
  (readCalculations bank3 (connected cn, bank3_heap)).1
  = Done (Some (Wrapf "readFromHeatPump.readUint32.paramID at index %d failed: %w"
                      [AUint32 3] EOF)) /\
  (readCalculations bank3 (connected stream, bank3_heap)).1
  = Done (Some (Wrapf "readFromHeatPump.readUint32.paramID at index %d failed: %w"
                      [AUint32 3] EOF)) /\
  (readCalculations bank3 (connected cn, bank3_heap)).1
  <> Done (Some (Errorf
       "DataTypeMap.SetRawValues length of data:%d not equal to length of DataTypeMap:%d"
       [AInt 4; AInt 3])).
Proof. split; [| split]; [vm_compute; reflexivity .. | vm_compute; discriminate]. Qed.

(** ** Reading one word *)

Lemma BigEndian_Uint32_short (bs : list byte) :
  (length bs < 4)%nat -> BigEndian_Uint32 bs = Panic "index out of range [3]".
Proof.
  intros Hlen. destruct bs as [| b0 [| b1 [| b2 [| b3 bs]]]]; try reflexivity.
  simpl in Hlen. lia.
Qed.

Lemma byte_to_Z_range (b : byte) : 0 <= byte_to_Z b < 256.
Proof.
  unfold byte_to_Z. pose proof (Byte.to_N_bounded b) as Hb. lia.
Qed.

Lemma lor_shiftl_add (x y n : Z) :
  0 <= n -> 0 <= x < 2 ^ n -> Z.lor x (Z.shiftl y n) = x + y * 2 ^ n.
Proof.
  intros Hn Hx. rewrite Z.shiftl_mul_pow2 by exact Hn.
  assert (Hland : Z.land x (y * 2 ^ n) = 0).
  { apply Z.bits_inj'. intros i Hi. rewrite Z.land_spec, Z.bits_0.
    destruct (Z.ltb_spec i n) as [Hlt | Hge].
    - rewrite Z.mul_pow2_bits_low by lia. apply andb_false_r.
    - destruct (Z.eq_dec x 0) as [-> | Hx0]; [rewrite Z.bits_0; reflexivity |].
      rewrite (Z.bits_above_log2 x i); [reflexivity | lia |].
      assert (Z.log2 x < n) by (apply Z.log2_lt_pow2; lia). lia. }
  rewrite <- Z.lxor_lor by exact Hland.
  symmetry. apply Z.add_nocarry_lxor. exact Hland.
Qed.

Lemma BigEndian_Uint32_value (b0 b1 b2 b3 : byte) (bs : list byte) :
  BigEndian_Uint32 (b0 :: b1 :: b2 :: b3 :: bs)
  = Done (byte_to_Z b0 * 2 ^ 24 + byte_to_Z b1 * 2 ^ 16
          + byte_to_Z b2 * 2 ^ 8 + byte_to_Z b3).
Proof.
  pose proof (byte_to_Z_range b0). pose proof (byte_to_Z_range b1).
  pose proof (byte_to_Z_range b2). pose proof (byte_to_Z_range b3).
  unfold BigEndian_Uint32. f_equal.
  rewrite (lor_shiftl_add (byte_to_Z b3) (byte_to_Z b2) 8) by lia.
  rewrite (lor_shiftl_add _ (byte_to_Z b1) 16) by lia.
  rewrite (lor_shiftl_add _ (byte_to_Z b0) 24) by lia.
  lia.
Qed.

Lemma conn_Read_split (n : nat) (cn : Conn) (bs : list byte) (err : option error)
    (rest : list arrival) :
  inbound cn = Arrive bs err :: rest -> (n < length bs)%nat ->
  conn_Read n cn = ((take n bs, None), set_inbound (Arrive (drop n bs) err :: rest) cn).
Proof.
  intros Hin Hlen. unfold conn_Read. rewrite Hin.
  rewrite (proj2 (Nat.leb_gt _ _) Hlen). reflexivity.
Qed.

(** C8. [readUint32] issues ONE [Read] into a four-byte buffer and does not
    loop. When that [Read] delivers four bytes, exactly four bytes are taken
    from the transport and the value is their big-endian interpretation.
    When it delivers fewer than four bytes without an error (a short read),
    [binary.BigEndian.Uint32(buf[:n])] indexes past the slice and the call
    panics, whatever is still to arrive: the short read is neither retried
    nor surfaced as an error, against the claim. *)
Theorem readUint32_single_Read (c : Client) (cn : Conn) (bs : list byte)
    (rest : list arrival) :
  conn c = Some cn ->
  inbound cn = Arrive bs None :: rest ->
  ((4 <= length bs)%nat ->
   exists b0 b1 b2 b3,
     take 4 bs = [b0; b1; b2; b3] /\
     readUint32 c
     = (Done (byte_to_Z b0 * 2 ^ 24 + byte_to_Z b1 * 2 ^ 16
              + byte_to_Z b2 * 2 ^ 8 + byte_to_Z b3, None),
        set_conn (set_inbound (after_four bs None rest) cn) c)) /\
  ((length bs < 4)%nat ->
   readUint32 c = (Panic "index out of range [3]", set_conn (set_inbound rest cn) c)).
Proof.
  intros Hc Hin. split; intros Hlen.
  - destruct bs as [| b0 [| b1 [| b2 [| b3 bs]]]]; simpl in Hlen; try lia.
    exists b0, b1, b2, b3. split; [reflexivity |].
    unfold readUint32, after_four. rewrite Hc.
    destruct bs as [| b4 bs].
    + rewrite (conn_Read_whole _ cn _ None rest Hin) by reflexivity.
      cbn [fst snd]. rewrite BigEndian_Uint32_value. reflexivity.
    + rewrite (conn_Read_split _ cn _ None rest Hin) by (simpl; unfold SocketReadSizeInteger; lia).
      cbn [fst snd]. unfold SocketReadSizeInteger. cbn [take].
      rewrite BigEndian_Uint32_value. reflexivity.
  - unfold readUint32. rewrite Hc.
    rewrite (conn_Read_whole _ cn _ None rest Hin) by (unfold SocketReadSizeInteger; lia).
    cbn [fst snd]. rewrite (BigEndian_Uint32_short bs Hlen). reflexivity.
Qed.

Lemma readUint32_single_Read_witness :
  readUint32 (connected (scripted [Arrive [x00; x00] None; Arrive [x0b; xbc] None]))
  = (Panic "index out of range [3]",
     connected (scripted [Arrive [x0b; xbc] None])).
Proof.
  exact (proj2 (readUint32_single_Read
                  (connected (scripted [Arrive [x00; x00] None; Arrive [x0b; xbc] None]))
                  (scripted [Arrive [x00; x00] None; Arrive [x0b; xbc] None])
                  [x00; x00] [Arrive [x0b; xbc] None] eq_refl eq_refl)
               ltac:(simpl; lia)).
Defined.

(** [netRead], the sibling that [readUint32] does not use, completes the
    same short read. *)
Lemma netRead_completes_short_read :
  netRead 4 (connected (scripted [Arrive [x00; x00] None; Arrive [x0b; xbc] None]))
  = (Done (Some ([x00; x00; x0b; xbc], 4, None)), connected (scripted [])).
Proof. reflexivity. Qed.

Lemma netRead_loop_total (fuel : nat) :
  forall (end_ cur : nat) (filled : list byte) (cn : Conn),
    (cur <= end_)%nat -> (length (inbound cn) < fuel)%nat ->
    is_Some (netRead_loop fuel end_ cur filled cn).
Proof.
  induction fuel as [| fuel IH]; intros end_ cur filled cn Hcur Hfuel; [lia |].
  cbn [netRead_loop]. unfold conn_Read.
  destruct (inbound cn) as [| [bs err] rest] eqn:Hin.
  - cbn [fst snd]. eauto.
  - destruct (Nat.leb_spec (length bs) (end_ - cur)) as [Hfit | Hbig]; cbn [fst snd].
    + destruct err as [e |]; [eauto |].
      destruct (cur + length bs =? end_)%nat; [eauto |].
      apply IH; [lia | simpl in *; lia].
    + rewrite length_take. rewrite Nat.min_l by lia.
      rewrite (proj2 (Nat.eqb_eq _ _)) by lia. eauto.
Qed.

Lemma netRead_returns (n : nat) (c : Client) (cn : Conn) :
  conn c = Some cn ->
  exists r c', netRead n c = (Done (Some r), c').
Proof.
  intros Hc. unfold netRead. rewrite Hc.
  destruct (netRead_loop_total (S (length (inbound cn))) n 0 [] cn) as [[r cn'] Hrun];
    [lia | lia |].
  rewrite Hrun. eauto.
Qed.

(** ** The codec on the controller's sample values *)

Example Celsius_decode_215 (nm : string) (w : bool) :
  result_of FromHeatPump (after (SetRaw 215) (NewCelsius nm w))
  = Done (AFloat32 (F32.of_ratio 43 2)) /\
  result_of Unit (NewCelsius nm w) = Done "°C".
Proof. split; reflexivity. Qed.

Example Version_decode (nm : string) :
  result_of FromHeatPump (after (SetRaw 304) (NewMajorMinorVersion nm))
  = Done (AString "3.4") /\
  result_of FromHeatPump (NewMajorMinorVersion nm) = Done (AString "0").
Proof. split; reflexivity. Qed.

Example IPV4Address_decode (nm : string) :
  result_of FromHeatPump (after (SetRaw 0xC0A80079) (NewIPV4Address nm))
  = Done (AString "192.168.0.121").
Proof. reflexivity. Qed.

Example Seconds_decode (nm : string) :
  result_of FromHeatPump (after (SetRaw 90) (NewSeconds nm))
  = Done (ADuration (90 * Second)).
Proof. reflexivity. Qed.

Example GetVersion_1_23_45 :
  (GetVersion version_bank version_heap).1 = Done "1.23.45".
Proof. vm_compute. reflexivity. Qed.

(** * Further properties of the code *)

(** ** Sorted iteration *)

Lemma sorted_keys_spec (pm : DataTypeMap) :
  StronglySorted Z.lt (sorted_keys pm) /\
  forall k : Z, k ∈ sorted_keys pm <-> is_Some (pm !! k).
Proof.
  unfold sorted_keys. split.
  - assert (Hs : StronglySorted Z.le (merge_sort Z.le (map_to_list pm).*1))
      by apply (StronglySorted_merge_sort _).
    assert (Hnd : NoDup (merge_sort Z.le (map_to_list pm).*1)).
    { rewrite merge_sort_Permutation. apply NoDup_fst_map_to_list. }
    induction Hs as [| k ks Hs IH Hall]; [constructor |].
    apply NoDup_cons in Hnd as [Hnotin Hnd].
    constructor; [apply IH, Hnd |].
    rewrite Forall_forall in Hall |- *. intros k' Hk'.
    specialize (Hall k' Hk'). assert (k <> k') by (intros ->; contradiction). lia.
  - intros k. rewrite merge_sort_Permutation, list_elem_of_fmap. split.
    + intros [[k' p] [-> Hin]]. apply elem_of_map_to_list in Hin. simpl. eauto.
    + intros [p Hp]. exists (k, p). split; [reflexivity |].
      apply elem_of_map_to_list, Hp.
Qed.

Lemma visit_keys_record (pm : DataTypeMap) (keys : list Z) (seen : list (Z * ptr)) :
  visit_keys pm record_visit keys seen
  = (Done tt, seen ++ ((fun k => (k, at_key pm k)) <$> keys)).
Proof.
  revert seen. induction keys as [| k ks IH]; intros seen; simpl.
  - rewrite app_nil_r. reflexivity.
  - rewrite IH, <- app_assoc. reflexivity.
Qed.

(** X1. [IterateSorted] calls the callback once for every entry of the map
    and for nothing else, in strictly ascending key order, each key with the
    pointer stored under it. *)
Theorem IterateSorted_visits (pm : DataTypeMap) :
  exists seen : list (Z * ptr),
    IterateSorted pm record_visit [] = (Done tt, seen) /\
    StronglySorted Z.lt (seen.*1) /\
    forall (k : Z) (p : ptr), (k, p) ∈ seen <-> pm !! k = Some p.
Proof.
  destruct (sorted_keys_spec pm) as [Hsorted Hkeys].
  exists ((fun k => (k, at_key pm k)) <$> sorted_keys pm).
  split; [apply (visit_keys_record pm (sorted_keys pm) []) |]. split.
  - rewrite <- list_fmap_compose.
    replace (fst ∘ (fun k : Z => (k, at_key pm k)) <$> sorted_keys pm)
      with (id <$> sorted_keys pm) by (apply list_fmap_ext; intros; reflexivity).
    rewrite list_fmap_id. exact Hsorted.
  - intros k p. rewrite list_elem_of_fmap. split.
    + intros [k' [Heq Hin]]. injection Heq as -> ->.
      apply Hkeys in Hin as [p Hp]. unfold at_key. rewrite Hp. reflexivity.
    + intros Hp. exists k. split.
      * unfold at_key. rewrite Hp. reflexivity.
      * apply Hkeys. eauto.
Qed.

Lemma IterateSorted_stops_at_panic {S} (pm : DataTypeMap)
    (cb : Z -> ptr -> S -> outcome unit * S) (keys1 keys2 : list Z) (k : Z)
    (s s1 s2 : S) (msg : string) :
  visit_keys pm cb keys1 s = (Done tt, s1) ->
  cb k (at_key pm k) s1 = (Panic msg, s2) ->
  visit_keys pm cb (keys1 ++ k :: keys2) s = (Panic msg, s2).
Proof.
  revert s. induction keys1 as [| k1 ks IH]; intros s Hrun Hcb; simpl in *.
  - injection Hrun as <-. rewrite Hcb. reflexivity.
  - destruct (cb k1 (at_key pm k1) s) as [[[] | msg'] s']; [| discriminate].
    apply IH; assumption.
Qed.

(** ** The looping reader *)

Lemma stream_bytes_cons (bs : list byte) (err : option error) (rest : list arrival) :
  stream_bytes (Arrive bs err :: rest) = bs ++ stream_bytes rest.
Proof. reflexivity. Qed.

Lemma netRead_loop_fills (arrivals : list arrival) :
  forall (fuel end_ cur : nat) (filled : list byte) (cn : Conn),
    inbound cn = arrivals -> error_free arrivals ->
    (cur < end_)%nat -> (end_ - cur <= length (stream_bytes arrivals))%nat ->
    (length arrivals < fuel)%nat ->
    exists cn',
      netRead_loop fuel end_ cur filled cn
      = Some ((filled ++ take (end_ - cur) (stream_bytes arrivals), Z.of_nat end_, None), cn') /\
      stream_bytes (inbound cn') = drop (end_ - cur) (stream_bytes arrivals) /\
      error_free (inbound cn').
Proof.
  induction arrivals as [| [bs err] rest IH];
    intros fuel end_ cur filled cn Hin Hfree Hcur Hneed Hfuel.
  - simpl in Hneed. lia.
  - apply Forall_cons in Hfree as [-> Hfree].
    destruct fuel as [| fuel]; [lia |]. cbn [netRead_loop].
    rewrite stream_bytes_cons in *. rewrite length_app in Hneed.
    destruct (le_lt_dec (length bs) (end_ - cur)) as [Hfit | Hbig].
    + rewrite (conn_Read_whole _ cn bs None rest Hin Hfit). cbn [fst snd].
      destruct (Nat.eqb_spec (cur + length bs) end_) as [Heq | Hne].
      * exists (set_inbound rest cn). split; [| split]; [| | exact Hfree].
        -- rewrite take_app_length' by lia. reflexivity.
        -- rewrite drop_app_length' by lia. reflexivity.
      * destruct (IH fuel end_ (cur + length bs)%nat (filled ++ bs) (set_inbound rest cn))
          as [cn' [Hrun [Hleft Hfree']]];
          [reflexivity | exact Hfree | lia | lia | simpl in Hfuel; lia |].
        exists cn'. split; [| split]; [| | exact Hfree'].
        -- rewrite Hrun. rewrite <- app_assoc.
           rewrite (take_app_ge bs) by lia.
           replace (end_ - (cur + length bs))%nat with (end_ - cur - length bs)%nat by lia.
           reflexivity.
        -- rewrite Hleft. rewrite (drop_app_ge bs) by lia.
           replace (end_ - (cur + length bs))%nat with (end_ - cur - length bs)%nat by lia.
           reflexivity.
    + rewrite (conn_Read_split _ cn bs None rest Hin Hbig). cbn [fst snd].
      rewrite length_take_le by lia.
      rewrite (proj2 (Nat.eqb_eq _ _)) by lia.
      exists (set_inbound (Arrive (drop (end_ - cur) bs) None :: rest) cn).
      split; [| split].
      * rewrite take_app_le by lia. reflexivity.
      * cbn [inbound set_inbound]. rewrite stream_bytes_cons.
        rewrite drop_app_le by lia. reflexivity.
      * constructor; [reflexivity | exact Hfree].
Qed.

Lemma netRead_loop_runs_dry (arrivals : list arrival) :
  forall (fuel end_ cur : nat) (filled : list byte) (cn : Conn),
    inbound cn = arrivals -> error_free arrivals ->
    (length (stream_bytes arrivals) < end_ - cur)%nat ->
    (length arrivals < fuel)%nat ->
    netRead_loop fuel end_ cur filled cn
    = Some ((filled ++ stream_bytes arrivals,
             Z.of_nat (cur + length (stream_bytes arrivals)),
             Some (Wrapf "netRead failed to read with error: %w" [] EOF)),
            set_inbound [] cn).
Proof.
  induction arrivals as [| [bs err] rest IH];
    intros fuel end_ cur filled cn Hin Hfree Hshort Hfuel.
  - destruct fuel as [| fuel]; [simpl in Hfuel; lia |]. cbn [netRead_loop].
    rewrite (conn_Read_EOF _ cn Hin). cbn [fst snd].
    destruct cn as [i o w]. simpl in Hin. subst i. reflexivity.
  - apply Forall_cons in Hfree as [-> Hfree].
    destruct fuel as [| fuel]; [lia |]. cbn [netRead_loop].
    rewrite stream_bytes_cons in *. rewrite length_app in *.
    rewrite (conn_Read_whole _ cn bs None rest Hin) by lia. cbn [fst snd].
    rewrite (proj2 (Nat.eqb_neq _ _)) by lia.
    rewrite (IH fuel end_ (cur + length bs)%nat (filled ++ bs) (set_inbound rest cn));
      [| reflexivity | exact Hfree | lia | simpl in Hfuel; lia].
    rewrite <- app_assoc.
    replace (cur + length bs + length (stream_bytes rest))%nat
      with (cur + (length bs + length (stream_bytes rest)))%nat by lia.
    reflexivity.
Qed.

(** X2. [netRead] completes short reads. If no arrival carries an error and
    the transport still has at least [n > 0] bytes to deliver, in whatever
    pieces (empty ones included), [netRead] returns exactly the first [n]
    bytes of the stream and the count [n] without error, and leaves the rest
    of the stream unread. *)
Theorem netRead_fills_buffer (n : nat) (c : Client) (cn : Conn) :
  conn c = Some cn -> error_free (inbound cn) ->
  (0 < n <= length (stream_bytes (inbound cn)))%nat ->
  exists c',
    netRead n c
    = (Done (Some (take n (stream_bytes (inbound cn)), Z.of_nat n, None)), c') /\
    stream_bytes (unread c') = drop n (stream_bytes (inbound cn)) /\
    error_free (unread c').
Proof.
  intros Hc Hfree [Hpos Hneed]. unfold netRead. rewrite Hc.
  destruct (netRead_loop_fills (inbound cn) (S (length (inbound cn))) n 0 [] cn)
    as [cn' [Hrun [Hleft Hfree']]];
    [reflexivity | exact Hfree | lia | lia | lia |].
  rewrite Hrun. rewrite Nat.sub_0_r in *.
  exists (set_conn cn' c). split; [reflexivity |]. split; assumption.
Qed.

Lemma netRead_fills_buffer_witness :
  exists c',
    netRead 4 (connected (scripted [Arrive [x00] None; Arrive [] None;
                                    Arrive [x00; x0b] None; Arrive [xbc; xff] None]))
    = (Done (Some ([x00; x00; x0b; xbc], 4, None)), c') /\
    stream_bytes (unread c') = [xff].
Proof.
  destruct (netRead_fills_buffer 4
              (connected (scripted [Arrive [x00] None; Arrive [] None;
                                    Arrive [x00; x0b] None; Arrive [xbc; xff] None]))
              (scripted [Arrive [x00] None; Arrive [] None;
                         Arrive [x00; x0b] None; Arrive [xbc; xff] None])
              eq_refl)
    as [c' [Hrun [Hleft _]]].
  - repeat constructor.
  - simpl. lia.
  - exists c'. split; [exact Hrun | exact Hleft].
Defined.

(** X3. [netRead] on a transport that ends early. If the error-free
    transport holds fewer than [n] bytes, [netRead] consumes all of them and
    returns them with their number and an error that wraps [io.EOF]. *)
Theorem netRead_reports_EOF (n : nat) (c : Client) (cn : Conn) :
  conn c = Some cn -> error_free (inbound cn) ->
  (length (stream_bytes (inbound cn)) < n)%nat ->
  netRead n c
  = (Done (Some (stream_bytes (inbound cn),
                 Z.of_nat (length (stream_bytes (inbound cn))),
                 Some (Wrapf "netRead failed to read with error: %w" [] EOF))),
     set_conn (set_inbound [] cn) c).
Proof.
  intros Hc Hfree Hshort. unfold netRead. rewrite Hc.
  rewrite (netRead_loop_runs_dry (inbound cn) (S (length (inbound cn))) n 0 [] cn);
    [reflexivity | reflexivity | exact Hfree | lia | lia].
Qed.

Lemma netRead_reports_EOF_witness :
  netRead 4 (connected (scripted [Arrive [x00; x00] None; Arrive [x0b] None]))
  = (Done (Some ([x00; x00; x0b], 3,
                 Some (Wrapf "netRead failed to read with error: %w" [] EOF))),
     connected (scripted [])).
Proof.
  refine (netRead_reports_EOF 4
            (connected (scripted [Arrive [x00; x00] None; Arrive [x0b] None]))
            (scripted [Arrive [x00; x00] None; Arrive [x0b] None]) eq_refl _ _).
  - repeat constructor.
  - simpl. lia.
Defined.

(** ** Words on the wire *)

Lemma bind_int32_bytes_cons (w : Z) (ws : list Z) :
  (w :: ws) ≫= int32_bytes = int32_bytes w ++ (ws ≫= int32_bytes).
Proof. reflexivity. Qed.

Lemma length_bind_int32_bytes (ws : list Z) :
  length (ws ≫= int32_bytes) = (4 * length ws)%nat.
Proof.
  induction ws as [| w ws IH]; [reflexivity |].
  rewrite bind_int32_bytes_cons, length_app, IH, length_int32_bytes. simpl. lia.
Qed.

Lemma readUint32_stream (c : Client) (cn : Conn) (w : Z) (bs : list byte)
    (err : option error) (rest : list arrival) :
  inbound cn = Arrive (int32_bytes w ++ bs) err :: rest -> bs <> [] ->
  readUint32 (set_conn cn c)
  = (Done (U32.wrap w, None), set_conn (set_inbound (Arrive bs err :: rest) cn) c).
Proof.
  intros Hin Hbs. unfold readUint32. cbn [conn set_conn].
  rewrite (conn_Read_split _ cn _ err rest Hin).
  - cbn [fst snd]. unfold SocketReadSizeInteger.
    rewrite (take_app_length' (int32_bytes w) bs 4) by reflexivity.
    rewrite (drop_app_length' (int32_bytes w) bs 4) by reflexivity.
    rewrite BigEndian_int32_bytes. reflexivity.
  - rewrite length_app, length_int32_bytes. unfold SocketReadSizeInteger.
    destruct bs; [contradiction | simpl; lia].
Qed.

Lemma read_entries_stream (cmd : Z) (data : list Z) :
  cmd <> VisibilitiesRead ->
  forall (i : Z) (acc : list Z) (c : Client) (cn : Conn) (rest : list arrival),
    data <> [] ->
    inbound cn = Arrive (data ≫= int32_bytes) None :: rest ->
    read_entries cmd (length data) i acc (set_conn cn c)
    = (Done (inl (acc ++ (U32.wrap <$> data))), set_conn (set_inbound rest cn) c).
Proof.
  intros Hcmd. apply Z.eqb_neq in Hcmd.
  induction data as [| w ws IH]; intros i acc c cn rest Hne Hin; [contradiction |].
  cbn [length read_entries]. rewrite Hcmd. rewrite bind_int32_bytes_cons in Hin.
  destruct ws as [| w' ws].
  - change ([] ≫= int32_bytes) with (@nil byte) in Hin. rewrite app_nil_r in Hin.
    rewrite (readUint32_next c cn w rest Hin). reflexivity.
  - rewrite (readUint32_stream c cn w _ None rest Hin)
      by (rewrite bind_int32_bytes_cons; intros Heq; apply (f_equal length) in Heq;
          rewrite length_app, length_int32_bytes in Heq; simpl in Heq; lia).
    rewrite (IH (i + 1) (acc ++ [U32.wrap w]) c
                (set_inbound (Arrive ((w' :: ws) ≫= int32_bytes) None :: rest) cn) rest)
      by (first [discriminate | reflexivity]).
    rewrite <- app_assoc. reflexivity.
Qed.

(** X4. Round trip on the wire. [netWrite] writes four octets per word and
    reports that count; a peer that receives the written bytes in one piece
    reads them back, with the entry loop of the read framing, as the same
    words modulo [2^32] (the two's complement of each [int32]). *)
Theorem wire_round_trip (data : list Z) (c : Client) (cn : Conn) (cmd : Z) :
  conn c = Some cn -> write_error cn = None -> data <> [] ->
  cmd <> VisibilitiesRead ->
  exists cn1,
    netWrite data c = (Done (4 * Z.of_nat (length data), None), set_conn cn1 c) /\
    exists written,
      outbound cn1 = outbound cn ++ written /\
      read_entries cmd (length data) 0 [] (connected (scripted [Arrive written None]))
      = (Done (inl (U32.wrap <$> data)), connected (scripted [])).
Proof.
  intros Hc Hw Hne Hcmd. exists (sent data cn). split.
  - rewrite (netWrite_ok data c cn Hc Hw), length_bind_int32_bytes.
    repeat f_equal. lia.
  - exists (data ≫= int32_bytes). split; [reflexivity |].
    apply (read_entries_stream cmd data Hcmd 0 []
             (connected (scripted [Arrive (data ≫= int32_bytes) None]))
             (scripted [Arrive (data ≫= int32_bytes) None]) [] Hne eq_refl).
Qed.

Lemma wire_round_trip_witness :
  exists written,
    outbound (sent [ParametersWrite; 1; -5] (scripted [])) = written /\
    read_entries ParametersRead 3 0 [] (connected (scripted [Arrive written None]))
    = (Done (inl [3002; 1; 4294967291]), connected (scripted [])).
Proof.
  destruct (wire_round_trip [ParametersWrite; 1; -5] (connected (scripted []))
              (scripted []) ParametersRead eq_refl eq_refl)
    as [cn1 [Hwrite [written [Hout Hread]]]]; [discriminate | discriminate |].
  exists written. split; [| exact Hread].
  assert (Hcn1 : cn1 = sent [ParametersWrite; 1; -5] (scripted [])).
  { rewrite (netWrite_ok _ (connected (scripted [])) (scripted []) eq_refl eq_refl) in Hwrite.
    unfold set_conn in Hwrite. congruence. }
  rewrite <- Hcn1, Hout. reflexivity.
Defined.

(** ** Single bytes and the visibilities bank *)

(** X5. [readChar] on a connected client never panics and takes at most one
    byte from the stream; when it reports no error, the byte it returns is
    the first byte of the stream and exactly that byte is gone. *)
Theorem readChar_one_byte (c : Client) (cn : Conn) :
  conn c = Some cn ->
  exists (b : byte) (err : option error) (c' : Client),
    readChar c = (Done (b, err), c') /\
    (stream_bytes (unread c') = stream_bytes (inbound cn) \/
     stream_bytes (unread c') = drop 1 (stream_bytes (inbound cn))) /\
    (err = None ->
     stream_bytes (inbound cn) = b :: stream_bytes (unread c')).
Proof.
  intros Hc. unfold readChar, conn_Read. rewrite Hc.
  destruct (inbound cn) as [| [bs e] rest] eqn:Hin.
  - eexists _, _, _. split; [reflexivity |]. cbn [fst snd].
    split; [left; unfold unread; simpl; rewrite Hin; reflexivity | discriminate].
  - destruct bs as [| b0 [| b1 bs]].
    + destruct e as [e |]; eexists _, _, _; (split; [reflexivity |]);
        (split; [left; reflexivity | discriminate]).
    + destruct e as [e |]; eexists _, _, _; (split; [reflexivity |]);
        (split; [right; reflexivity |]).
      * discriminate.
      * intros _. reflexivity.
    + eexists _, _, _. split; [reflexivity |].
      split; [right; reflexivity |]. intros _. reflexivity.
Qed.

Lemma readChar_one_byte_witness :
  exists c',
    readChar (connected (scripted [Arrive [x01; x00] None])) = (Done (x01, None), c') /\
    stream_bytes (unread c') = [x00].
Proof.
  destruct (readChar_one_byte (connected (scripted [Arrive [x01; x00] None]))
              (scripted [Arrive [x01; x00] None]) eq_refl)
    as [b [err [c' [Hrun [_ Hhead]]]]].
  assert (Hconcrete :
            readChar (connected (scripted [Arrive [x01; x00] None]))
            = (Done (x01, None), connected (scripted [Arrive [x00] None])))
    by reflexivity.
  rewrite Hconcrete in Hrun. injection Hrun as <- <- <-.
  exists (connected (scripted [Arrive [x00] None])). split; reflexivity.
Defined.

Lemma readChar_stream (c : Client) (cn : Conn) (b0 : byte) (bs : list byte)
    (rest : list arrival) :
  inbound cn = Arrive (b0 :: bs) None :: rest ->
  readChar (set_conn cn c)
  = (Done (b0, None),
     set_conn (set_inbound (match bs with [] => rest | _ => Arrive bs None :: rest end) cn) c).
Proof.
  intros Hin. unfold readChar, conn_Read. cbn [conn set_conn]. rewrite Hin.
  destruct bs; reflexivity.
Qed.

Lemma read_entries_bytes (bytes : list byte) :
  forall (i : Z) (acc : list Z) (c : Client) (cn : Conn) (rest : list arrival),
    bytes <> [] ->
    inbound cn = Arrive bytes None :: rest ->
    read_entries VisibilitiesRead (length bytes) i acc (set_conn cn c)
    = (Done (inl (acc ++ (byte_to_Z <$> bytes))), set_conn (set_inbound rest cn) c).
Proof.
  induction bytes as [| b0 bs IH]; intros i acc c cn rest Hne Hin; [contradiction |].
  cbn [length read_entries]. rewrite Z.eqb_refl.
  rewrite (readChar_stream c cn b0 bs rest Hin).
  destruct bs as [| b1 bs].
  - reflexivity.
  - rewrite (IH (i + 1) (acc ++ [byte_to_Z b0]) c
                (set_inbound (Arrive (b1 :: bs) None :: rest) cn) rest)
      by (first [discriminate | reflexivity]).
    rewrite <- app_assoc. reflexivity.
Qed.

Lemma byte_values_below_256 (bytes : list byte) :
  Forall (fun v => 0 <= v < 256) (byte_to_Z <$> bytes).
Proof.
  apply Forall_fmap, Forall_forall. intros b _. apply byte_to_Z_range.
Qed.

(** X6. The visibilities framing: echo 3005, no status word, the length,
    then one byte per entry. Into a dense map of that size whose slots do not
    share descriptors the call succeeds, slot [i] holds the [i]-th byte
    widened to [uint32] (so below 256), and what follows the reply stays
    unread. *)
Theorem readVisibilities_framing (pm : DataTypeMap) (h : heap) (cn : Conn)
    (bytes : list byte) (more : list arrival) :
  write_error cn = None -> bytes <> [] ->
  Z.of_nat (length bytes) < U32.modulus ->
  inbound cn
  = whole_words [VisibilitiesRead; Z.of_nat (length bytes)] ++ Arrive bytes None :: more ->
  length bytes = size pm -> dense pm h -> no_alias pm ->
  exists c' h',
    readVisibilities pm (connected cn, h) = (Done None, (c', h')) /\
    raw_values pm h' (length bytes) = Some <$> (byte_to_Z <$> bytes) /\
    Forall (fun v => 0 <= v < 256) (byte_to_Z <$> bytes) /\
    unread c' = more.
Proof.
  intros Hw Hne Hlen Hin Hsize Hd Hna.
  unfold readVisibilities, readFromHeatPump.
  rewrite (netWrite_ok _ (connected cn) cn eq_refl Hw).
  cbn [whole_words fmap list_fmap app] in Hin.
  rewrite (readUint32_next (connected cn) (sent [VisibilitiesRead; 0] cn) _ _ Hin).
  change (VisibilitiesRead =? CalculationsRead) with false. cbv iota.
  change (U32.wrap VisibilitiesRead) with VisibilitiesRead.
  rewrite Z.eqb_refl. cbn [negb].
  erewrite readUint32_next by reflexivity.
  rewrite (wrap_small (Z.of_nat (length bytes))) by (unfold U32.in_range; lia).
  rewrite Nat2Z.id.
  erewrite (read_entries_bytes bytes 0 []); [| exact Hne | reflexivity].
  cbn [app].
  rewrite (SetRawValues_dense pm (byte_to_Z <$> bytes) h)
    by (rewrite ?length_fmap; assumption).
  eexists _, _. split; [reflexivity |]. cbn [fst snd]. split; [| split].
  - pose proof (raw_values_after_bulk pm (byte_to_Z <$> bytes) h) as Hraw.
    rewrite length_fmap in Hraw. apply Hraw; assumption.
  - apply byte_values_below_256.
  - reflexivity.
Qed.

Lemma readVisibilities_framing_witness :
  exists c' h',
    readVisibilities bank3
      (connected (scripted (whole_words [VisibilitiesRead; 3]
                            ++ [Arrive [x01; x00; x01] None])), bank3_heap)
    = (Done None, (c', h')) /\
    raw_values bank3 h' 3 = [Some 1; Some 0; Some 1].
Proof.
  destruct (readVisibilities_framing bank3 bank3_heap
              (scripted (whole_words [VisibilitiesRead; 3]
                         ++ [Arrive [x01; x00; x01] None]))
              [x01; x00; x01] [] eq_refl)
    as [c' [h' [Hrun [Hraw _]]]];
    [discriminate | reflexivity | reflexivity | reflexivity
     | exact bank3_dense | exact bank3_no_alias |].
  exists c', h'. split; [exact Hrun | exact Hraw].
Defined.

(** ** Reading a whole bank *)

Lemma readFromHeatPump_reply_exact pm (cmd0 arg st : Z) (data : list Z)
    (more : list arrival) (cn : Conn) (h : heap) :
  write_error cn = None ->
  cmd0 <> VisibilitiesRead ->
  Z.of_nat (length data) < U32.modulus ->
  inbound cn = reply cmd0 st (Z.of_nat (length data)) data ++ more ->
  exists c',
    readFromHeatPump pm [cmd0; arg] (connected cn, h)
    = ((SetRawValues pm (U32.wrap <$> data) h).1,
       (c', (SetRawValues pm (U32.wrap <$> data) h).2)) /\
    unread c' = more /\
    (outbound <$> conn c') = Some (outbound cn ++ int32_bytes cmd0 ++ int32_bytes arg).
Proof.
  intros Hw Hcmd Hlen Hin. unfold readFromHeatPump.
  rewrite (netWrite_ok _ (connected cn) cn eq_refl Hw).
  unfold reply in Hin. cbn [whole_words fmap list_fmap app] in Hin.
  rewrite (readUint32_next (connected cn) (sent [cmd0; arg] cn) cmd0 _ Hin).
  set (c1 := set_conn (set_inbound _ _) _).
  assert (Hstatus :
            (if cmd0 =? CalculationsRead
             then match readUint32 c1 with
                  | (Panic msg, c) => (Panic msg, c)
                  | (Done (_, err), c) => (Done err, c)
                  end
             else (Done None, c1))
            = (Done None,
               set_conn (set_inbound (whole_words (Z.of_nat (length data) :: data) ++ more)
                                     (sent [cmd0; arg] cn))
                        (connected cn))).
  { subst c1. destruct (cmd0 =? CalculationsRead).
    - erewrite readUint32_next by reflexivity. reflexivity.
    - reflexivity. }
  rewrite Hstatus. clear Hstatus c1.
  rewrite Z.eqb_refl. cbn [negb].
  erewrite readUint32_next by reflexivity.
  rewrite (wrap_small (Z.of_nat (length data))) by (unfold U32.in_range; lia).
  rewrite Nat2Z.id.
  erewrite (read_entries_whole cmd0 data Hcmd 0 []); [| reflexivity | reflexivity].
  cbn [app]. eexists. split; [reflexivity |].
  split; destruct data; simpl; rewrite ?app_nil_r; reflexivity.
Qed.

(** X7. Reading a bank of any size with a command other than
    [VisibilitiesRead]. The request written is the command word and the
    argument; on the reply echo, status word (for [CalculationsRead] only),
    length [N] and [N] entries, into a dense map of size [N] whose slots do
    not share descriptors, the call succeeds, the slots hold the entries in
    order, and what follows the reply stays unread. *)
Theorem read_bank (pm : DataTypeMap) (h : heap) (cn : Conn) (cmd0 arg st : Z)
    (data : list Z) (more : list arrival) :
  write_error cn = None ->
  cmd0 <> VisibilitiesRead ->
  inbound cn = reply cmd0 st (Z.of_nat (length data)) data ++ more ->
  Forall U32.in_range data ->
  length data = size pm -> Z.of_nat (size pm) < U32.modulus ->
  dense pm h -> no_alias pm ->
  exists c' h',
    readFromHeatPump pm [cmd0; arg] (connected cn, h) = (Done None, (c', h')) /\
    raw_values pm h' (size pm) = Some <$> data /\
    unread c' = more /\
    (outbound <$> conn c') = Some (outbound cn ++ int32_bytes cmd0 ++ int32_bytes arg).
Proof.
  intros Hw Hcmd Hin Hrange Hsize Hlen Hd Hna.
  destruct (readFromHeatPump_reply_exact pm cmd0 arg st data more cn h Hw Hcmd)
    as [c' [Hrun [Hleft Hout]]]; [lia | exact Hin |].
  assert (Hdata : U32.wrap <$> data = data).
  { clear -Hrange. induction Hrange as [| w ws Hw _ IH]; [reflexivity |].
    cbn [fmap list_fmap]. cbn [fmap list_fmap] in IH.
    rewrite (wrap_small w Hw). f_equal. exact IH. }
  rewrite Hdata in Hrun.
  rewrite (SetRawValues_dense pm data h Hsize Hd) in Hrun.
  exists c', (setter_calls pm (calls_from 0 data) h).
  split; [exact Hrun |]. split; [| split; assumption].
  rewrite <- Hsize. apply raw_values_after_bulk; assumption.
Qed.

Lemma read_bank_witness :
  exists c' h',
    readParameters bank3
      (connected (scripted (whole_words [ParametersRead; 3; 215; 0; 4294967295])),
       bank3_heap)
    = (Done None, (c', h')) /\
    raw_values bank3 h' 3 = [Some 215; Some 0; Some 4294967295].
Proof.
  destruct (read_bank bank3 bank3_heap
              (scripted (whole_words [ParametersRead; 3; 215; 0; 4294967295]))
              ParametersRead 0 0 [215; 0; 4294967295] [] eq_refl)
    as [c' [h' [Hrun [Hraw _]]]].
  - discriminate.
  - reflexivity.
  - repeat constructor; unfold U32.modulus; lia.
  - reflexivity.
  - rewrite bank3_size. reflexivity.
  - exact bank3_dense.
  - exact bank3_no_alias.
  - exists c', h'. split; [exact Hrun |]. rewrite bank3_size in Hraw. exact Hraw.
Defined.

(** ** Failed reads *)

Lemma SetRawValues_dense_all_or_nothing (pm : DataTypeMap) (data : list Z) (h : heap) :
  dense pm h ->
  (SetRawValues pm data h).1 <> Done None -> (SetRawValues pm data h).2 = h.
Proof.
  intros Hd Hfail.
  destruct (decide (length data = size pm)) as [Heq | Hne].
  - rewrite (SetRawValues_dense pm data h Heq Hd) in Hfail. contradiction.
  - rewrite (SetRawValues_mismatch pm data h Hne). reflexivity.
Qed.

(** X8. A read that does not succeed changes no descriptor. On a dense map,
    for every request, every client and every transport behaviour: if
    [readFromHeatPump] returns an error or panics, the heap is the one it
    started from. *)
Theorem failed_read_changes_nothing (pm : DataTypeMap) (data : list Z)
    (c : Client) (h : heap) :
  dense pm h ->
  (readFromHeatPump pm data (c, h)).1 <> Done None ->
  (readFromHeatPump pm data (c, h)).2.2 = h.
Proof.
  intros Hd. unfold readFromHeatPump.
  destruct data as [| cmd0 [| arg data]]; [reflexivity | reflexivity |].
  destruct (netWrite _ c) as [[[n [e |]] | msg] c1]; [reflexivity | | reflexivity].
  destruct (readUint32 c1) as [[[cmd [e |]] | msg] c2]; [reflexivity | | reflexivity].
  destruct (cmd0 =? CalculationsRead).
  - destruct (readUint32 c2) as [[[stat [e |]] | msg] c3]; [reflexivity | | reflexivity].
    destruct (negb (cmd =? U32.wrap cmd0)); [reflexivity |].
    destruct (readUint32 c3) as [[[len [e |]] | msg] c4]; [reflexivity | | reflexivity].
    destruct (read_entries _ _ _ _ c4) as [[[raws | e] | msg] c5];
      [| reflexivity | reflexivity].
    cbn [fst snd]. apply SetRawValues_dense_all_or_nothing, Hd.
  - destruct (negb (cmd =? U32.wrap cmd0)); [reflexivity |].
    destruct (readUint32 c2) as [[[len [e |]] | msg] c4]; [reflexivity | | reflexivity].
    destruct (read_entries _ _ _ _ c4) as [[[raws | e] | msg] c5];
      [| reflexivity | reflexivity].
    cbn [fst snd]. apply SetRawValues_dense_all_or_nothing, Hd.
Qed.

Lemma failed_read_changes_nothing_witness :
  (readCalculations bank3
     (connected (scripted [Arrive [x00; x00] None]), bank3_heap)).2.2 = bank3_heap.
Proof.
  apply (failed_read_changes_nothing bank3 [CalculationsRead; 0]
           (connected (scripted [Arrive [x00; x00] None])) bank3_heap bank3_dense).
  vm_compute. discriminate.
Defined.

(** X9. On a client without connection the read operations do not return a
    "not connected" error: they panic on the nil connection, and a bank read
    leaves client and descriptors as they were. *)
Theorem read_without_connection (pm : DataTypeMap) (cmd0 arg : Z) (rest : list Z)
    (c : Client) (h : heap) :
  conn c = None ->
  readFromHeatPump pm (cmd0 :: arg :: rest) (c, h)
  = (Panic "nil pointer dereference", (c, h)) /\
  (readUint32 c).1 = Panic "nil pointer dereference" /\
  (readChar c).1 = Panic "nil pointer dereference" /\
  forall n, (netRead n c).1 = Panic "nil pointer dereference".
Proof.
  intros Hc. unfold readFromHeatPump, netWrite, readUint32, readChar, netRead.
  rewrite Hc. repeat split.
Qed.

Lemma read_without_connection_witness :
  readParameters bank3
    ({| host := "192.168.0.121"; port := DefaultPort; conn := None |}, bank3_heap)
  = (Panic "nil pointer dereference",
     ({| host := "192.168.0.121"; port := DefaultPort; conn := None |}, bank3_heap)).
Proof.
  exact (proj1 (read_without_connection bank3 ParametersRead 0 []
                  {| host := "192.168.0.121"; port := DefaultPort; conn := None |}
                  bank3_heap eq_refl)).
Defined.

(** ** The version aggregate *)

Lemma call_read_only {A} (p : ptr) (m : method A) (h : heap) :
  read_only m -> (call p m h).2 = h.
Proof.
  intros Hm. unfold call. destruct p as [l |]; [| reflexivity].
  destruct (h !! l) as [b |] eqn:Hl; [| reflexivity]. cbn [snd].
  fold (after m b). rewrite (Hm b). apply insert_id, Hl.
Qed.

Lemma call_result {A} (l : loc) (b : Base) (m : method A) (h : heap) :
  h !! l = Some b -> (call (Some l) m h).1 = result_of m b.
Proof. intros Hl. unfold call. rewrite Hl. reflexivity. Qed.

Lemma GetVersion_from_frame (pm : DataTypeMap) (n : nat) :
  forall (i : Z) (buf : string) (h : heap), (GetVersion_from pm i n buf h).2 = h.
Proof.
  induction n as [| n IH]; intros i buf h; [reflexivity |].
  cbn [GetVersion_from].
  pose proof (call_read_only (at_key pm i) FromHeatPump h FromHeatPump_read_only) as Hh.
  destruct (call (at_key pm i) FromHeatPump h) as [[a | msg] h'];
    cbn [snd] in Hh; subst h'; [| reflexivity].
  destruct a; try reflexivity. apply IH.
Qed.

Lemma GetVersion_from_strings (pm : DataTypeMap) (h : heap) (ss : list string) :
  forall (i : Z) (buf : string),
    (forall (k : nat) (s : string), ss !! k = Some s ->
       exists l b, pm !! (i + Z.of_nat k) = Some (Some l) /\ h !! l = Some b /\
                   result_of FromHeatPump b = Done (AString s)) ->
    GetVersion_from pm i (length ss) buf h
    = (Done (foldl String.append buf ss), h).
Proof.
  induction ss as [| s ss IH]; intros i buf Hslots; [reflexivity |].
  cbn [length GetVersion_from foldl].
  destruct (Hslots 0%nat s eq_refl) as [l [b [Hpm [Hl Hdec]]]].
  rewrite Z.add_0_r in Hpm.
  pose proof (call_read_only (at_key pm i) FromHeatPump h FromHeatPump_read_only) as Hh.
  pose proof (call_result l b FromHeatPump h Hl) as Hr.
  rewrite <- (at_key_Some pm i (Some l) Hpm) in Hr. rewrite Hdec in Hr.
  destruct (call (at_key pm i) FromHeatPump h) as [r h'].
  cbn [fst snd] in Hh, Hr. subst h' r.
  apply IH. intros k s' Hk. destruct (Hslots (S k) s' Hk) as [l' [b' [Hpm' H']]].
  exists l', b'. split; [| exact H'].
  rewrite <- Hpm'. f_equal. lia.
Qed.

(** X10. [GetVersion] never changes a descriptor. When the slots 81..87 hold
    descriptors that decode to strings, it returns their concatenation in
    slot order; when slot 81 is missing from the map it panics. *)
Theorem GetVersion_aggregate (pm : DataTypeMap) (h : heap) :
  (GetVersion pm h).2 = h /\
  (forall ss : list string,
     length ss = 7%nat ->
     (forall (k : nat) (s : string), ss !! k = Some s ->
        exists l b, pm !! (81 + Z.of_nat k) = Some (Some l) /\ h !! l = Some b /\
                    result_of FromHeatPump b = Done (AString s)) ->
     (GetVersion pm h).1 = Done (foldl String.append "" ss)) /\
  (at_key pm 81 = None -> (GetVersion pm h).1 = Panic "nil pointer dereference").
Proof.
  split; [apply GetVersion_from_frame |]. split.
  - intros ss Hlen Hslots. unfold GetVersion. rewrite <- Hlen.
    rewrite (GetVersion_from_strings pm h ss 81 "" Hslots). reflexivity.
  - intros Hnil. unfold GetVersion. cbn [GetVersion_from]. rewrite Hnil. reflexivity.
Qed.

(** ** Single descriptors *)





(** The characters [charTable] lists. *)
Lemma Character_decode_listed (nm : string) (c : ascii) :
  c ∈ list_ascii_of_string
        "#!$%&'*+-.0123456789ABCDEFGHIJKLMNOPQRSTUWVXYZ^_`abcdefghijklmnopqrstuvwxyz|~" ->
  result_of FromHeatPump
    (set_rawValue (Z.of_nat (nat_of_ascii c)) (NewCharacter nm))
  = Done (AString (String c EmptyString)).
Proof.
  intros Hin. cbn [list_ascii_of_string] in Hin.
  repeat (apply elem_of_cons in Hin as [-> | Hin]; [vm_compute; reflexivity |]).
  apply elem_of_nil in Hin. contradiction.
Qed.

Lemma GetVersion_aggregate_witness :
  (GetVersion version_bank version_heap).1 = Done "1.23.45".
Proof.
  refine (proj1 (proj2 (GetVersion_aggregate version_bank version_heap))
            ["1"; "."; "2"; "3"; "."; "4"; "5"] eq_refl _).
  intros k s Hk.
  destruct k as [| [| [| [| [| [| [| k]]]]]]]; try discriminate Hk;
    injection Hk as <-;
    [ exists 81%positive, (set_rawValue 49 (NewCharacter "ID_WEB_SoftStand"))
    | exists 82%positive, (set_rawValue 46 (NewCharacter "ID_WEB_SoftStand"))
    | exists 83%positive, (set_rawValue 50 (NewCharacter "ID_WEB_SoftStand"))
    | exists 84%positive, (set_rawValue 51 (NewCharacter "ID_WEB_SoftStand"))
    | exists 85%positive, (set_rawValue 46 (NewCharacter "ID_WEB_SoftStand"))
    | exists 86%positive, (set_rawValue 52 (NewCharacter "ID_WEB_SoftStand"))
    | exists 87%positive, (set_rawValue 53 (NewCharacter "ID_WEB_SoftStand")) ];
    (split; [vm_compute; reflexivity | split; vm_compute; reflexivity]).
Defined.

(** X12. Decoding a seconds descriptor never overflows [int64]: for every
    [uint32] raw value the duration is exactly [raw] seconds in nanoseconds. *)
Theorem Seconds_decode_exact (nm : string) (raw prev : Z) :
  U32.in_range raw ->
  result_of FromHeatPump (set_rawValue raw (set_prevRawValue prev (NewSeconds nm)))
  = Done (ADuration (raw * 1000000000)).
Proof.
  intros [Hlo Hhi]. unfold U32.modulus in Hhi.
  unfold result_of, FromHeatPump, bind, read, ret. simpl.
  unfold I64.wrap, Second. do 2 f_equal.
  rewrite Z.mod_small; lia.
Qed.

Lemma Seconds_decode_exact_witness :
  result_of FromHeatPump
    (set_rawValue 4294967295 (set_prevRawValue 0 (NewSeconds "ID_WEB_Time_WPein_akt")))
  = Done (ADuration 4294967295000000000).
Proof.
  apply (Seconds_decode_exact "ID_WEB_Time_WPein_akt" 4294967295 0).
  unfold U32.in_range, U32.modulus. lia.
Defined.

(** X13. The hours2 closures against each other. For every [uint32] raw
    value the decoder returns [1 + raw/2] without wrap-around, and the
    encoder applied to that value returns [raw] with its lowest bit cleared
    (odd raw values come back one less). The encoder applied to 0 wraps
    around to 4294967294. *)
Theorem Hours2_closures (tc : textconv) (nm : string) (w : bool) (raw : Z) :
  U32.in_range raw ->
  exists decode encode,
    customFromHP (NewHours2 tc nm w) = Some decode /\
    customToHP (NewHours2 tc nm w) = Some encode /\
    decode raw = Done (AUint32 (1 + raw / 2)) /\
    encode (AUint32 (1 + raw / 2)) = Done (2 * (raw / 2), None) /\
    encode (AUint32 0) = Done (4294967294, None).
Proof.
  intros [Hlo Hhi]. unfold U32.modulus in Hhi.
  eexists _, _. split; [reflexivity |]. split; [reflexivity |].
  assert (Hhalf : 0 <= raw / 2 < 2 ^ 31).
  { split; [apply Z.div_pos; lia | apply Z.div_lt_upper_bound; lia]. }
  split; [| split].
  - cbn beta. rewrite wrap_small by (unfold U32.in_range, U32.modulus; lia). reflexivity.
  - cbn beta. unfold cast.ToUint32.
    replace ((1 + raw / 2 - 1) * 2) with (2 * (raw / 2)) by lia.
    rewrite wrap_small by (unfold U32.in_range, U32.modulus; lia). reflexivity.
  - reflexivity.
Qed.

Lemma Hours2_closures_witness :
  exists decode encode,
    customFromHP (NewHours2 refusing_textconv "ID_Einst_Popt_Nachlauf_akt" true)
    = Some decode /\
    customToHP (NewHours2 refusing_textconv "ID_Einst_Popt_Nachlauf_akt" true)
    = Some encode /\
    decode 11 = Done (AUint32 6) /\ encode (AUint32 6) = Done (10, None).
Proof.
  destruct (Hours2_closures refusing_textconv "ID_Einst_Popt_Nachlauf_akt" true 11)
    as [decode [encode [Hd [He [Hdec [Henc _]]]]]].
  - unfold U32.in_range, U32.modulus. lia.
  - exists decode, encode. repeat split; assumption.
Defined.

(** ** Tenths *)

Lemma spec_float_eqb_eq (x y : spec_float) : spec_float_eqb x y = true -> x = y.
Proof.
  destruct x as [s | s | | s m e], y as [s' | s' | | s' m' e']; simpl; try discriminate.
  - intros H. apply Bool.eqb_prop in H. congruence.
  - intros H. apply Bool.eqb_prop in H. congruence.
  - reflexivity.
  - intros H. apply andb_prop in H as [H He]. apply andb_prop in H as [Hs Hm].
    apply Bool.eqb_prop in Hs. apply Pos.eqb_eq in Hm. apply Z.eqb_eq in He. congruence.
Qed.

Lemma tenths_check_all : forallb tenths_check (Z.of_nat <$> seq 0 4096) = true.
Proof. vm_compute. reflexivity. Qed.

Lemma tenths_check_below (raw : Z) : 0 <= raw < 4096 -> tenths_check raw = true.
Proof.
  intros Hraw. pose proof tenths_check_all as Hall.
  rewrite forallb_forall in Hall. apply Hall.
  apply list_elem_of_In, list_elem_of_fmap. exists (Z.to_nat raw). split; [lia |].
  apply elem_of_seq. lia.
Qed.

(** X14. Tenths of a degree, for every raw value below 4096 on a writeable
    Celsius descriptor: decoding gives the [float32] nearest to [raw/10], and
    encoding that value gives [raw] or [raw - 1] (the [float32] division by
    0.1 is truncated; raw 13 comes back as 12). *)
Theorem Celsius_round_trip (tc : textconv) (nm : string) (raw prev : Z) :
  0 <= raw < 4096 ->
  let b := set_rawValue raw (set_prevRawValue prev (NewCelsius nm true)) in
  exists z,
    result_of FromHeatPump b = Done (AFloat32 (F32.of_ratio raw 10)) /\
    result_of (ToHeatPump tc (AFloat32 (F32.of_ratio raw 10))) b = Done (z, None) /\
    raw - 1 <= z <= raw.
Proof.
  intros Hraw b. pose proof (tenths_check_below raw Hraw) as Hcheck.
  unfold tenths_check in Hcheck.
  apply andb_prop in Hcheck as [Hcheck Hhi]. apply andb_prop in Hcheck as [Hdec Hlo].
  apply spec_float_eqb_eq in Hdec. rewrite Hdec in Hlo, Hhi.
  exists (uint32_of_float (F32.div (F32.of_ratio raw 10) (F32.of_ratio 1 10))).
  split; [| split].
  - rewrite <- Hdec. reflexivity.
  - reflexivity.
  - lia.
Qed.

Lemma Celsius_round_trip_witness :
  result_of FromHeatPump
    (set_rawValue 13 (set_prevRawValue 0 (NewCelsius "ID_Einst_WK_akt" true)))
  = Done (AFloat32 (F32.of_ratio 13 10)) /\
  result_of (ToHeatPump refusing_textconv (AFloat32 (F32.of_ratio 13 10)))
    (set_rawValue 13 (set_prevRawValue 0 (NewCelsius "ID_Einst_WK_akt" true)))
  = Done (12, None).
Proof.
  destruct (Celsius_round_trip refusing_textconv "ID_Einst_WK_akt" 13 0)
    as [z [Hdec [Henc _]]]; [lia |].
  split; [exact Hdec |]. vm_compute in Henc. injection Henc as <-.
  vm_compute. reflexivity.
Defined.

(** ** The bulk setter: what it keeps *)

Lemma same_register_refl (b : Base) : same_register b b.
Proof. reflexivity. Qed.

Lemma same_register_trans (b1 b2 b3 : Base) :
  same_register b1 b2 -> same_register b2 b3 -> same_register b1 b3.
Proof. unfold same_register. congruence. Qed.

Lemma same_register_SetRaw (raw : Z) (b : Base) : same_register b (after (SetRaw raw) b).
Proof. reflexivity. Qed.

(** One setter call keeps every register in its place. *)
Lemma call_SetRaw_keeps (p : ptr) (raw : Z) (h : heap) (l : loc) :
  match h !! l, (call p (SetRaw raw) h).2 !! l with
  | Some b, Some b' => same_register b b'
  | None, None => True
  | _, _ => False
  end.
Proof.
  unfold call. destruct p as [l' |].
  - destruct (h !! l') as [b' |] eqn:Hl'; cbn [snd].
    + destruct (decide (l' = l)) as [-> | Hne].
      * rewrite lookup_insert_eq, Hl'. apply same_register_SetRaw.
      * rewrite lookup_insert_ne by exact Hne.
        destruct (h !! l); [apply same_register_refl | exact I].
    + destruct (h !! l); [apply same_register_refl | exact I].
  - cbn [snd]. destruct (h !! l); [apply same_register_refl | exact I].
Qed.

Lemma SetRawValues_from_keeps (pm : DataTypeMap) (data : list Z) :
  forall (idx : Z) (h : heap) (l : loc),
    match h !! l, (SetRawValues_from pm idx data h).2 !! l with
    | Some b, Some b' => same_register b b'
    | None, None => True
    | _, _ => False
    end.
Proof.
  induction data as [| raw rest IH]; intros idx h l; cbn [SetRawValues_from].
  - cbn [snd]. destruct (h !! l); [apply same_register_refl | exact I].
  - pose proof (call_SetRaw_keeps (at_key pm idx) raw h l) as Hstep.
    destruct (call (at_key pm idx) (SetRaw raw) h) as [[[] | msg] h1]; cbn [snd] in *.
    + specialize (IH (idx + 1) h1 l).
      destruct (h !! l) as [b |], (h1 !! l) as [b1 |],
        ((SetRawValues_from pm (idx + 1) rest h1).2 !! l) as [b2 |];
        try contradiction; try exact I.
      exact (same_register_trans b b1 b2 Hstep IH).
    + exact Hstep.
Qed.

Lemma SetRawValues_keeps (pm : DataTypeMap) (data : list Z) (h : heap)
    (l : loc) :
  match h !! l, (SetRawValues pm data h).2 !! l with
  | Some b, Some b' => same_register b b'
  | None, None => True
  | _, _ => False
  end.
Proof.
  unfold SetRawValues. destruct (negb _); cbn [snd].
  - destruct (h !! l); [apply same_register_refl | exact I].
  - pose proof (SetRawValues_from_keeps pm data 0 h l) as Hk.
    destruct (SetRawValues_from pm 0 data h) as [[[] | msg] h']; exact Hk.
Qed.

(** X15. The bulk setter touches nothing but raw and previous raw values.
    For every map, vector and heap, also when the call fails or panics
    half-way: no descriptor appears or disappears, and every descriptor keeps
    all its other fields. *)
Theorem SetRawValues_keeps_registers (pm : DataTypeMap) (data : list Z) (h : heap)
    (l : loc) :
  match h !! l, (SetRawValues pm data h).2 !! l with
  | Some b, Some b' => same_register b b'
  | None, None => True
  | _, _ => False
  end.
Proof. exact (SetRawValues_keeps pm data h l). Qed.

Lemma setter_calls_dense (pm : DataTypeMap) (data : list Z) (h : heap) :
  length data = size pm -> dense pm h ->
  dense pm (setter_calls pm (calls_from 0 data) h).
Proof.
  intros Hlen Hd i Hi. destruct (Hd i Hi) as [l [b [Hpm Hl]]].
  pose proof (SetRawValues_keeps pm data h l) as Hk.
  rewrite (SetRawValues_dense pm data h Hlen Hd) in Hk. cbn [snd] in Hk.
  rewrite Hl in Hk.
  destruct (setter_calls pm (calls_from 0 data) h !! l) as [b' |] eqn:Hl';
    [| contradiction].
  exists l, b'. split; [exact Hpm | exact Hl'].
Qed.

(** X16. Change detection across two bulk assignments. On a dense map whose
    slots do not share descriptors, after [SetRawValues data1] and then
    [SetRawValues data2] the descriptor of slot [i] holds [data2[i]] as raw
    and [data1[i]] as previous raw value, and [HasChanges] answers whether
    the two differ. *)
Theorem two_reads_change_detection (pm : DataTypeMap) (data1 data2 : list Z) (h : heap) :
  length data1 = size pm -> length data2 = size pm ->
  dense pm h -> no_alias pm ->
  exists h1 h2,
    SetRawValues pm data1 h = (Done None, h1) /\
    SetRawValues pm data2 h1 = (Done None, h2) /\
    forall (i : nat) (l : loc) (raw1 raw2 : Z),
      pm !! Z.of_nat i = Some (Some l) ->
      data1 !! i = Some raw1 -> data2 !! i = Some raw2 ->
      exists b,
        h2 !! l = Some b /\ rawValue b = raw2 /\ prevRawValue b = raw1 /\
        result_of HasChanges b = Done (negb (raw1 =? raw2)).
Proof.
  intros Hlen1 Hlen2 Hd Hna.
  pose proof (setter_calls_dense pm data1 h Hlen1 Hd) as Hd1.
  exists (setter_calls pm (calls_from 0 data1) h),
         (setter_calls pm (calls_from 0 data2) (setter_calls pm (calls_from 0 data1) h)).
  split; [apply SetRawValues_dense; assumption |].
  split; [apply SetRawValues_dense; assumption |].
  intros i l raw1 raw2 Hpm H1 H2.
  pose proof (lookup_lt_Some _ _ _ H1) as Hi.
  destruct (Hd (Z.of_nat i)) as [l0 [b0 [Hpm0 Hl0]]]; [lia |].
  assert (l0 = l) by congruence. subst l0.
  pose proof (setter_calls_slot pm data1 Hna 0%nat h i l b0 raw1) as Hs1.
  rewrite Nat.sub_0_r in Hs1. specialize (Hs1 ltac:(lia) Hpm Hl0 H1).
  pose proof (setter_calls_slot pm data2 Hna 0%nat
                (setter_calls pm (calls_from 0 data1) h) i l
                (after (SetRaw raw1) b0) raw2) as Hs2.
  rewrite Nat.sub_0_r in Hs2. specialize (Hs2 ltac:(lia) Hpm Hs1 H2).
  eexists. split; [exact Hs2 |]. repeat split.
Qed.

Lemma two_reads_change_detection_witness :
  exists h1 h2,
    SetRawValues bank3 [10; 20; 30] bank3_heap = (Done None, h1) /\
    SetRawValues bank3 [10; 21; 30] h1 = (Done None, h2) /\
    (exists b, h2 !! 2%positive = Some b /\ result_of HasChanges b = Done true) /\
    (exists b, h2 !! 3%positive = Some b /\ result_of HasChanges b = Done false).
Proof.
  destruct (two_reads_change_detection bank3 [10; 20; 30] [10; 21; 30] bank3_heap
              eq_refl eq_refl bank3_dense bank3_no_alias)
    as [h1 [h2 [Hr1 [Hr2 Hslots]]]].
  exists h1, h2. split; [exact Hr1 |]. split; [exact Hr2 |]. split.
  - destruct (Hslots 1%nat 2%positive 20 21 eq_refl eq_refl eq_refl)
      as [b [Hb [_ [_ Hch]]]].
    exists b. split; assumption.
  - destruct (Hslots 2%nat 3%positive 30 30 eq_refl eq_refl eq_refl)
      as [b [Hb [_ [_ Hch]]]].
    exists b. split; assumption.
Defined.

(** ** Encoding on the catalogue's descriptors *)

Lemma tenth_not_zero : F32.eqb (F32.of_ratio 1 10) F32.zero = false.
Proof. vm_compute. reflexivity. Qed.

Ltac encode_outcome :=
  first
    [ rewrite ToHeatPump_not_writeable by reflexivity;
      eexists _, _; split; [reflexivity |];
      intros e He; injection He as <-; reflexivity
    | erewrite ToHeatPump_with_codes by reflexivity;
      match goal with
      | |- context [find_code ?v ?cs ?k] => destruct (find_code v cs k)
      end;
      eexists _, _; (split; [reflexivity |]);
      intros e He; first [discriminate He | injection He as <-; reflexivity]
    | erewrite ToHeatPump_custom by reflexivity;
      cbn beta;
      try match goal with
          | |- context [if ?c then _ else _] => destruct c
          end;
      eexists _, _; (split; [reflexivity |]); intros e He; discriminate He
    | rewrite ToHeatPump_by_shape by reflexivity;
      cbn [returnType factor set_rawValue set_prevRawValue NewCelsius NewKelvin
           NewHours NewMinutes literal];
      rewrite ?tenth_not_zero; cbn [negb];
      eexists _, _; (split; [reflexivity |]); intros e He; discriminate He ].

(** X17. Encoding on the catalogue's descriptors, at any raw value and for
    every requested value: [ToHeatPump] never panics (the unimplemented
    encoder of the IP address is behind the writeable gate) and no error it
    returns is or wraps [ErrWritingNotAllowed]. *)
Theorem ToHeatPump_on_catalogue (tc : textconv) (val : any) (b : Base) :
  in_service tc b ->
  exists (z : Z) (err : option error),
    result_of (ToHeatPump tc val) b = Done (z, err) /\
    forall e, err = Some e -> is_ErrWritingNotAllowed e = false.
Proof.
  intros [b0 [raw [prev [Hc ->]]]].
  destruct Hc; try (destruct w); encode_outcome.
Qed.

Lemma ToHeatPump_on_catalogue_witness :
  exists (z : Z) (err : option error),
    result_of (ToHeatPump refusing_textconv (AString "1.2.3.4"))
      (after (SetRaw 5) (NewIPV4Address "ID_WEB_AdresseIP_akt"))
    = Done (z, err) /\
    forall e, err = Some e -> is_ErrWritingNotAllowed e = false.
Proof.
  apply (ToHeatPump_on_catalogue refusing_textconv (AString "1.2.3.4")
           (after (SetRaw 5) (NewIPV4Address "ID_WEB_AdresseIP_akt"))).
  exists (NewIPV4Address "ID_WEB_AdresseIP_akt"), 5, 0.
  split; [constructor | reflexivity].
Defined.

(** ** Where decoding can panic *)






